(** * kapture_run_colmap_gv: the geometric-verification orchestrator

    A shallow embedding of [tools/kapture_run_colmap_gv.py].  The script is
    sequential glue code: it validates a loaded dataset snapshot, flattens
    rigs, and then runs four steps that call into the kapture library, the
    COLMAP database layer and the COLMAP binary.

    The embedding is a state-and-error monad that also records, in call
    order, every event the orchestrator causes (log lines, collaborator
    calls, file removals).  Python exceptions are the [Raise] results: they
    cut the rest of the run short and keep the effects done so far. *)

From Stdlib Require Import ZArith String Ascii List.
From stdpp Require Import base option gmap sets list strings fin_maps.

Local Open Scope string_scope.
Local Open Scope Z_scope.
Local Open Scope list_scope.

(** ** Strings and paths *)

(** [s.startswith('/')] *)
Definition starts_with_sep (s : string) : bool :=
  match s with
  | String c _ => Ascii.eqb c "/"%char
  | EmptyString => false
  end.

(** [s.endswith('/')] *)
Fixpoint ends_with_sep (s : string) : bool :=
  match s with
  | EmptyString => false
  | String c EmptyString => Ascii.eqb c "/"%char
  | String _ rest => ends_with_sep rest
  end.

(** [os.path.join(a, b)] on a POSIX system, for two components. *)
Definition os_path_join (a b : string) : string :=
  if starts_with_sep b then b
  else if (String.eqb a "" || ends_with_sep a)%bool then a +:+ b
  else a +:+ "/" +:+ b.

(** Fixed name of the COLMAP database inside the output directory
    (source line 63). *)
Definition colmap_db_path (kapture_colmap_matches_dirpath : string) : string :=
  os_path_join kapture_colmap_matches_dirpath "colmap.db".

(** ** Python truthiness of an optional container

    [bool(x)] for an attribute that is either [None] or a container with
    [__len__]: false for [None] and for length 0. *)
Definition truthy {C : Type} `{Size C} (o : option C) : bool :=
  match o with
  | Some c => negb (Nat.eqb (size c) 0)
  | None => false
  end.

(** ** Exceptions and log levels *)

(** The exceptions a run can end with.  [ValueError],
    [FileNotFoundError] and [AttributeError] are Python's; [ExternalFault]
    stands for an exception of any other class raised by the collaborator
    [who]. *)
Inductive exn : Type :=
| ValueError (msg : string)
| FileNotFoundError (path : string)
| AttributeError (msg : string)
| ExternalFault (who : string) (msg : string).

Inductive log_level : Type := DEBUG | INFO.

Inductive result (A : Type) : Type :=
| Ok (a : A)
| Raise (e : exn).
Arguments Ok {A} a.
Arguments Raise {A} e.

(** The four step names of the command line's [--skip] selector. *)
Definition all_steps : list string :=
  ["delete_existing"; "matches_importer"; "import"; "delete_db"].

(** ['name' in skip_list] *)
Definition py_in (name : string) (skip_list : list string) : bool :=
  bool_decide (name ∈ skip_list).

(** ** The dataset snapshot ([kapture.Kapture])

    Only the attributes this script reads or sets.  Every attribute of a
    [kapture.Kapture] is optional ([None] when absent). *)

Record Sensor : Type := mkSensor {
  sensor_type : string;
  sensor_params : list string
}.

(** Poses are rotations and translations in floating point; the
    orchestrator never looks inside one, so their type is a parameter.
    [Matches] is a Python set of image-name pairs. *)
Record Kapture (Pose : Type) : Type := mkKapture {
  sensors : option (gmap string Sensor);
  rigs : option (gmap string (gmap string Pose));
  trajectories : option (gmap Z (gmap string Pose));
  records_camera : option (gmap Z (gmap string string));
  keypoints : option (gset string);
  matches : option (gset (string * string))
}.

Arguments mkKapture {Pose} sensors rigs trajectories records_camera keypoints
  matches.
Arguments sensors {Pose} k.
Arguments rigs {Pose} k.
Arguments trajectories {Pose} k.
Arguments records_camera {Pose} k.
Arguments keypoints {Pose} k.
Arguments matches {Pose} k.

(** [kapture.Kapture()]: every attribute [None]. *)
Definition empty_kapture {Pose : Type} : Kapture Pose :=
  mkKapture None None None None None None.

Definition set_trajectories {Pose : Type}
    (t : option (gmap Z (gmap string Pose))) (k : Kapture Pose) : Kapture Pose :=
  mkKapture (sensors k) (rigs k) t (records_camera k) (keypoints k) (matches k).

Definition set_records_camera {Pose : Type}
    (r : option (gmap Z (gmap string string))) (k : Kapture Pose)
    : Kapture Pose :=
  mkKapture (sensors k) (rigs k) (trajectories k) r (keypoints k) (matches k).

Definition set_matches {Pose : Type} (m : option (gset (string * string)))
    (k : Kapture Pose) : Kapture Pose :=
  mkKapture (sensors k) (rigs k) (trajectories k) (records_camera k)
    (keypoints k) m.

Section Data.

Context {Pose : Type}.

#[local] Abbreviation Kapture := (Kapture Pose).

(** ** Events, in the order the orchestrator causes them *)

Inductive Event : Type :=
| EvLog (level : log_level) (msg : string)
| EvSafeRemoveFile (path : string) (force : bool)
| EvConfirm (path : string) (answer : option bool)
| EvFileRemoved (path : string)
| EvConnect (path : string)
| EvKaptureToColmap (kapture_data : Kapture) (kapture_dirpath : string)
    (db_path : string) (export_two_view_geometry : bool)
| EvClose (path : string)
| EvSubprocessLaunch (binary : string) (db_path : string) (use_cpu : bool)
| EvSubprocessExit (code : Z)
| EvUmask (mask : Z)
| EvGetImagesAndTrajectories (db_path : string)
| EvGetMatches (db_path : string) (kapture_dirpath : string)
    (no_geometric_filtering : bool)
| EvOsRemove (path : string).

(** ** The state a run acts on

    [loaded_none_matches] is the in-memory object that the argument
    [kapture_none_matches] refers to: the caller and the orchestrator share
    it, so an in-place update is an update of this field.  [files] are the
    files on disk, by path.  [answers] are the replies the user will give
    to confirmation prompts. *)
Record State : Type := mkState {
  loaded_none_matches : Kapture;
  files : gmap string string;
  umask : Z;
  answers : list bool
}.

Definition set_loaded (k : Kapture) (w : State) : State :=
  mkState k (files w) (umask w) (answers w).
Definition set_files (fs : gmap string string) (w : State) : State :=
  mkState (loaded_none_matches w) fs (umask w) (answers w).
Definition set_umask (m : Z) (w : State) : State :=
  mkState (loaded_none_matches w) (files w) m (answers w).
Definition set_answers (a : list bool) (w : State) : State :=
  mkState (loaded_none_matches w) (files w) (umask w) a.

(** ** The monad: state, exceptions and an event log *)

Record Outcome (A : Type) : Type := mkOutcome {
  res : result A;
  final : State;
  events : list Event
}.
Arguments mkOutcome {A} res final events.
Arguments res {A} o.
Arguments final {A} o.
Arguments events {A} o.

Definition M (A : Type) : Type := State → Outcome A.

Definition ret {A : Type} (a : A) : M A :=
  λ w, mkOutcome (Ok a) w [].

Definition raise {A : Type} (e : exn) : M A :=
  λ w, mkOutcome (Raise e) w [].

Definition bind {A B : Type} (m : M A) (k : A → M B) : M B :=
  λ w,
    match m w with
    | mkOutcome (Ok a) w1 ev1 =>
        match k a w1 with
        | mkOutcome r w2 ev2 => mkOutcome r w2 (ev1 ++ ev2)
        end
    | mkOutcome (Raise e) w1 ev1 => mkOutcome (Raise e) w1 ev1
    end.

Definition emit (e : Event) : M unit :=
  λ w, mkOutcome (Ok tt) w [e].

Definition get : M State :=
  λ w, mkOutcome (Ok w) w [].

Definition modify (f : State → State) : M unit :=
  λ w, mkOutcome (Ok tt) (f w) [].

End Data.

Arguments Event Pose : clear implicits.
Arguments State Pose : clear implicits.
Arguments Outcome Pose A : clear implicits.
Arguments M Pose A : clear implicits.
Arguments mkOutcome {Pose A} res final events.
Arguments res {Pose A} o.
Arguments final {Pose A} o.
Arguments events {Pose A} o.

#[global] Instance M_ret {Pose : Type} : MRet (M Pose) := @ret Pose.
#[global] Instance M_bind {Pose : Type} : MBind (M Pose) :=
  λ A B k m, bind m k.

(** ** Collaborators outside this script

    The COLMAP database layer ([kapture.converter.colmap]) and the COLMAP
    binary are not part of the script.  Each is a function on the files on
    disk that may fail with a message; the orchestrator is studied for
    every choice of them.  The script has no [try]: the exception a
    collaborator fails with leaves the script as it is, a [ValueError]
    as a [ValueError]. *)
Class Collaborators : Type := {
  (** whether the exception with which the collaborator [who] fails with
      the message [msg] is a [ValueError] *)
  raises_value_error : string → string → bool;
  (** the type of poses *)
  Pose : Type;
  (** [PoseTransform.compose]: the pose of a sensor in a rig, then the pose
      of the rig *)
  pose_compose : Pose → Pose → Pose;
  (** [COLMAPDatabase.connect(path)] *)
  colmap_connect : string → gmap string string →
    (string + unit) * gmap string string;
  (** [database_extra.kapture_to_colmap(kapture_data, kapture_dirpath,
      colmap_db, export_two_view_geometry)] *)
  kapture_to_colmap : Kapture Pose → string → string → bool → gmap string string →
    (string + unit) * gmap string string;
  (** what the COLMAP binary does to the files, and its exit code *)
  colmap_process : string → string → bool → Kapture Pose → bool →
    gmap string string → Z * gmap string string;
  (** [get_images_and_trajectories_from_database(colmap_db)] *)
  get_images_and_trajectories_from_database : string → gmap string string →
    (string + (gmap Z (gmap string string) * gmap Z (gmap string Pose))) *
    gmap string string;
  (** [get_matches_from_database(colmap_db, records_camera,
      kapture_dirpath, no_geometric_filtering)] *)
  get_matches_from_database : string → gmap Z (gmap string string) →
    string → bool → gmap string string →
    (string + gset (string * string)) * gmap string string
}.

Section Orchestrator.

Context `{Collaborators}.

#[local] Abbreviation Kapture := (Kapture Pose).
#[local] Abbreviation Event := (Event Pose).
#[local] Abbreviation State := (State Pose).
#[local] Abbreviation Outcome := (Outcome Pose).
#[local] Abbreviation M := (M Pose).

(** The exception with which the collaborator [who] fails: a [ValueError]
    when it raises one, otherwise a fault that keeps its name. *)
Definition collaborator_exn (who msg : string) : exn :=
  if raises_value_error who msg then ValueError msg else ExternalFault who msg.

(** A call into a collaborator: its effect on the files, and its exception
    when it fails. *)
Definition call {R : Type} (who : string)
    (f : gmap string string → (string + R) * gmap string string) : M R :=
  λ w,
    let '(r, fs) := f (files w) in
    mkOutcome
      (match r with
       | inl msg => Raise (collaborator_exn who msg)
       | inr x => Ok x
       end)
      (set_files fs w) [].

(** [logger.info(msg)] and [logger.debug(msg)] *)
Definition log (level : log_level) (msg : string) : M unit :=
  emit (EvLog level msg).

(** [os.remove(path)]: removes the file, [FileNotFoundError] when there is
    none. *)
Definition os_remove (path : string) : M unit :=
  emit (EvOsRemove path);;
  w ← get;
  match files w !! path with
  | Some _ => modify (set_files (delete path (files w)))
  | None => raise (FileNotFoundError path)
  end.

(** [os.umask(mask)]; the previous mask it returns is dropped by the
    script. *)
Definition os_umask (mask : Z) : M unit :=
  emit (EvUmask mask);;
  modify (set_umask mask).

(** [COLMAPDatabase.connect(path)] *)
Definition connect (path : string) : M unit :=
  emit (EvConnect path);;
  call "COLMAPDatabase.connect" (colmap_connect path).

(** [colmap_db.close()] *)
Definition close (path : string) : M unit :=
  emit (EvClose path).

(** ** Collaborators of this project and of kapture that are not in the
    script *)

(** Modelled from the spec: [kapture.core.Trajectories.rigs_remove_inplace]
    is not among the sources.  The spec's glossary has rig flattening as
    "replacing multi-camera-rig-relative poses with absolute per-camera
    poses", after which "no rig reference remains".  [flatten_rig] writes
    out one pose of a rig at one timestamp: every member of the rig gets its
    pose in the rig composed with the pose of the rig, in place of any pose it
    had, and the pose of the rig is taken away. *)
Definition flatten_rig (r : gmap string (gmap string Pose))
    (poses : gmap string Pose) (entry : string * Pose) : gmap string Pose :=
  match r !! entry.1 with
  | Some members =>
      delete entry.1
        (foldr (λ (member : string * Pose) (acc : gmap string Pose),
                  <[member.1 := pose_compose member.2 entry.2]> acc)
           poses (map_to_list members))
  | None => poses
  end.

(** Modelled from the spec: one pass over the poses of a timestamp, every
    pose of a rig written out.  A member that is itself a rig has a pose
    after the pass and is written out by the next one. *)
Definition flatten_round (r : gmap string (gmap string Pose))
    (poses : gmap string Pose) : gmap string Pose :=
  foldl (flatten_rig r) poses (map_to_list poses).

(** Modelled from the spec: the poses of one timestamp after as many passes
    as there are rigs, which writes out every rig nested in rigs; what would
    still be the pose of a rig then (a rig nested in itself) is left out, so
    that only poses of sensors remain. *)
Definition flatten_poses (r : gmap string (gmap string Pose))
    (poses : gmap string Pose) : gmap string Pose :=
  filter (λ entry : string * Pose, entry.1 ∉ dom r)
    (Nat.iter (size r) (flatten_round r) poses).

(** Modelled from the spec: [rigs_remove_inplace(trajectories, rigs)], the
    trajectories with every timestamp flattened.  The caller stores the
    result back into the object it passed, which is the in-place update. *)
Definition rigs_remove_inplace (t : gmap Z (gmap string Pose))
    (r : gmap string (gmap string Pose)) : gmap Z (gmap string Pose) :=
  flatten_poses r <$> t.

(** Modelled from the spec: [kapture.utils.paths.safe_remove_file] is not
    among the sources.  The spec has it remove "a pre-existing external
    database file at the fixed path, either silently (if forced) or after
    confirmation/failure if not": nothing to do when there is no file; with
    [force] the file is removed without a question; otherwise the user is
    asked, the file is removed on a yes, and the call fails on a no (or when
    no answer comes). *)
Definition safe_remove_file (filepath : string) (force : bool) : M unit :=
  emit (EvSafeRemoveFile filepath force);;
  w ← get;
  match files w !! filepath with
  | None => ret tt
  | Some _ =>
      if force then
        emit (EvFileRemoved filepath);;
        modify (set_files (delete filepath (files w)))
      else
        match answers w with
        | true :: rest =>
            emit (EvConfirm filepath (Some true));;
            modify (set_answers rest);;
            emit (EvFileRemoved filepath);;
            modify (set_files (delete filepath (files w)))
        | false :: rest =>
            emit (EvConfirm filepath (Some false));;
            modify (set_answers rest);;
            raise (ExternalFault "safe_remove_file" (filepath +:+ " already exist"))
        | [] =>
            emit (EvConfirm filepath None);;
            raise (ExternalFault "safe_remove_file" (filepath +:+ " already exist"))
        end
  end.

(** Modelled from the spec:
    [kapture_localization.colmap.colmap_command.run_matches_importer_from_kapture]
    is not among the sources.  The spec has it launch "the external binary
    in a blocking subprocess call configured for CPU-only execution", with
    "a database path", and "subprocess non-zero exit → error propagates":
    the call returns only after the subprocess has exited. *)
Definition run_matches_importer_from_kapture (colmap_binary : string)
    (colmap_use_cpu : bool) (colmap_gpu_index : option Z)
    (db_path : string) (kapture_data : Kapture) (force : bool) : M unit :=
  emit (EvSubprocessLaunch colmap_binary db_path colmap_use_cpu);;
  w ← get;
  let '(code, fs) :=
    colmap_process colmap_binary db_path colmap_use_cpu kapture_data force
      (files w) in
  modify (set_files fs);;
  emit (EvSubprocessExit code);;
  if Z.eqb code 0 then ret tt
  else raise (collaborator_exn "colmap" "matches_importer failed").

(** ** The orchestrator, block by block (source lines 51 to 110) *)

Definition mandatory_msg : string :=
  "records_camera, sensors, keypoints, matches are mandatory".

(** The condition of lines 52-53. *)
Definition has_mandatory (k : Kapture) : bool :=
  truthy (records_camera k) && truthy (sensors k) &&
  truthy (keypoints k) && truthy (matches k).

(** Lines 52-54. *)
Definition check_mandatory : M unit :=
  w ← get;
  if negb (has_mandatory (loaded_none_matches w))
  then raise (ValueError mandatory_msg)
  else ret tt.

(** Lines 56-60: the trajectories object of the loaded snapshot is updated
    in place. *)
Definition remove_rigs : M unit :=
  w ← get;
  let kapture_none_matches := loaded_none_matches w in
  match rigs kapture_none_matches, trajectories kapture_none_matches with
  | Some r, Some t =>
      log INFO "remove rigs notation.";;
      modify (set_loaded
                (set_trajectories (Some (rigs_remove_inplace t r))
                   kapture_none_matches))
  | _, _ => ret tt
  end.

(** Lines 64-65. *)
Definition step_delete_existing (db_path : string) (skip_list : list string)
    (force : bool) : M unit :=
  if negb (py_in "delete_existing" skip_list)
  then safe_remove_file db_path force
  else ret tt.

(** Lines 69-72: the verified matches, an empty set when there are none. *)
Definition colmap_matches_of (kapture_colmap_matches : Kapture)
    : gset (string * string) :=
  match matches kapture_colmap_matches with
  | Some m => m
  | None => ∅
  end.

(** Line 73, once the unverified matches are known to be there. *)
Definition matches_to_verify (none_matches : gset (string * string))
    (kapture_colmap_matches : Kapture) : gset (string * string) :=
  none_matches ∖ colmap_matches_of kapture_colmap_matches.

(** Lines 74-78. *)
Definition kapture_data_to_export (kapture_none_matches : Kapture)
    (to_verify : gset (string * string)) : Kapture :=
  mkKapture (sensors kapture_none_matches) None
    (trajectories kapture_none_matches)
    (records_camera kapture_none_matches)
    (keypoints kapture_none_matches)
    (Some to_verify).

(** Lines 67-95. *)
Definition step_matches_importer (kapture_colmap_matches : Kapture)
    (kapture_none_matches_dirpath db_path colmap_binary : string)
    (skip_list : list string) (force : bool) : M unit :=
  if negb (py_in "matches_importer" skip_list) then
    log DEBUG "compute matches difference.";;
    w ← get;
    let kapture_none_matches := loaded_none_matches w in
    match matches kapture_none_matches with
    | None =>
        raise (AttributeError "'NoneType' object has no attribute 'difference'")
    | Some none_matches =>
        let to_verify := matches_to_verify none_matches kapture_colmap_matches in
        let to_export := kapture_data_to_export kapture_none_matches to_verify in
        log DEBUG "export matches difference to db.";;
        connect db_path;;
        emit (EvKaptureToColmap to_export kapture_none_matches_dirpath db_path false);;
        call "kapture_to_colmap"
          (kapture_to_colmap to_export kapture_none_matches_dirpath db_path false);;
        close db_path;;
        log DEBUG "run matches_importer command.";;
        run_matches_importer_from_kapture colmap_binary true None db_path
          to_export force
    end
  else ret tt.

(** Lines 97-106.  The snapshot [kapture_data] built here is local to the
    block and dropped at its end. *)
Definition step_import (kapture_colmap_matches_dirpath db_path : string)
    (skip_list : list string) : M unit :=
  if negb (py_in "import" skip_list) then
    log DEBUG "import verified matches.";;
    os_umask 2;;
    connect db_path;;
    let kapture_data : Kapture := empty_kapture in
    emit (EvGetImagesAndTrajectories db_path);;
    images ← call "get_images_and_trajectories_from_database"
      (get_images_and_trajectories_from_database db_path);
    let kapture_data := set_records_camera (Some images.1) kapture_data in
    emit (EvGetMatches db_path kapture_colmap_matches_dirpath false);;
    verified ← call "get_matches_from_database"
      (get_matches_from_database db_path images.1
         kapture_colmap_matches_dirpath false);
    let kapture_data := set_matches (Some verified) kapture_data in
    close db_path
  else ret tt.

(** Lines 108-110. *)
Definition step_delete_db (db_path : string) (skip_list : list string)
    : M unit :=
  if negb (py_in "delete_db" skip_list) then
    log DEBUG "delete intermediate colmap db.";;
    os_remove db_path
  else ret tt.

(** [run_colmap_gv_from_loaded_data], lines 44-110.  The first argument of
    the Python function is the object held in [loaded_none_matches]. *)
Definition run_colmap_gv_from_loaded_data (kapture_colmap_matches : Kapture)
    (kapture_none_matches_dirpath kapture_colmap_matches_dirpath
       colmap_binary : string)
    (skip_list : list string) (force : bool) : M unit :=
  log INFO "run_colmap_gv...";;
  check_mandatory;;
  remove_rigs;;
  let db_path := colmap_db_path kapture_colmap_matches_dirpath in
  step_delete_existing db_path skip_list force;;
  step_matches_importer kapture_colmap_matches kapture_none_matches_dirpath
    db_path colmap_binary skip_list force;;
  step_import kapture_colmap_matches_dirpath db_path skip_list;;
  step_delete_db db_path skip_list.

(** ** Parts of a run, for statements about what has happened by a given
    line *)

(** Lines 51-60: up to the first step. *)
Definition run_before_steps : M unit :=
  log INFO "run_colmap_gv...";;
  check_mandatory;;
  remove_rigs.

(** Lines 62-110: the four steps. *)
Definition run_steps (kapture_colmap_matches : Kapture)
    (kapture_none_matches_dirpath kapture_colmap_matches_dirpath
       colmap_binary : string)
    (skip_list : list string) (force : bool) : M unit :=
  let db_path := colmap_db_path kapture_colmap_matches_dirpath in
  step_delete_existing db_path skip_list force;;
  step_matches_importer kapture_colmap_matches kapture_none_matches_dirpath
    db_path colmap_binary skip_list force;;
  step_import kapture_colmap_matches_dirpath db_path skip_list;;
  step_delete_db db_path skip_list.

(** Lines 51-65: up to and including the [delete_existing] step. *)
Definition run_through_delete_existing
    (kapture_colmap_matches_dirpath : string)
    (skip_list : list string) (force : bool) : M unit :=
  run_before_steps;;
  step_delete_existing (colmap_db_path kapture_colmap_matches_dirpath)
    skip_list force.

(** Lines 67-110: the three steps after [delete_existing]. *)
Definition run_after_delete_existing (kapture_colmap_matches : Kapture)
    (kapture_none_matches_dirpath kapture_colmap_matches_dirpath
       colmap_binary : string)
    (skip_list : list string) (force : bool) : M unit :=
  let db_path := colmap_db_path kapture_colmap_matches_dirpath in
  step_matches_importer kapture_colmap_matches kapture_none_matches_dirpath
    db_path colmap_binary skip_list force;;
  step_import kapture_colmap_matches_dirpath db_path skip_list;;
  step_delete_db db_path skip_list.

(** Lines 51-106: up to and including the [import] step. *)
Definition run_through_import (kapture_colmap_matches : Kapture)
    (kapture_none_matches_dirpath kapture_colmap_matches_dirpath
       colmap_binary : string)
    (skip_list : list string) (force : bool) : M unit :=
  run_through_delete_existing kapture_colmap_matches_dirpath skip_list force;;
  step_matches_importer kapture_colmap_matches kapture_none_matches_dirpath
    (colmap_db_path kapture_colmap_matches_dirpath) colmap_binary
    skip_list force;;
  step_import kapture_colmap_matches_dirpath
    (colmap_db_path kapture_colmap_matches_dirpath) skip_list.

(** The snapshot in memory after lines 56-60. *)
Definition flattened (k : Kapture) : Kapture :=
  match rigs k, trajectories k with
  | Some r, Some t => set_trajectories (Some (rigs_remove_inplace t r)) k
  | _, _ => k
  end.

(** ** Reading the event log *)

(** The step an event opens: each step starts with an event of its own. *)
Definition step_started (e : Event) : option string :=
  match e with
  | EvSafeRemoveFile _ _ => Some "delete_existing"
  | EvLog DEBUG msg =>
      if String.eqb msg "compute matches difference." then Some "matches_importer"
      else if String.eqb msg "import verified matches." then Some "import"
      else if String.eqb msg "delete intermediate colmap db." then Some "delete_db"
      else None
  | _ => None
  end.

Definition steps_started (l : list Event) : list string :=
  omap step_started l.

(** The calls of [kapture_to_colmap] in an event log, with their arguments:
    the package, the dataset directory, the database and the
    [export_two_view_geometry] flag. *)
Definition export_call (e : Event) : option (Kapture * string * string * bool) :=
  match e with
  | EvKaptureToColmap kapture_data kapture_dirpath db_path two_view =>
      Some (kapture_data, kapture_dirpath, db_path, two_view)
  | _ => None
  end.

Definition exported (l : list Event) : list (Kapture * string * string * bool) :=
  omap export_call l.

(** Whether the orchestrator holds a database handle after the events [l]:
    the last of the connects and closes is a connect. *)
Fixpoint db_held (held : bool) (l : list Event) : bool :=
  match l with
  | [] => held
  | EvConnect _ :: rest => db_held true rest
  | EvClose _ :: rest => db_held false rest
  | _ :: rest => db_held held rest
  end.

(** A pass over an event log that follows two facts, whether the
    orchestrator holds a database handle and whether the subprocess is
    running, and fails when the subprocess is launched while a handle is held
    or while it already runs, when it exits without running, and when
    anything else happens while it runs. *)
Fixpoint scan (held running : bool) (l : list Event) : option (bool * bool) :=
  match l with
  | [] => Some (held, running)
  | EvSubprocessLaunch _ _ _ :: rest =>
      if (held || running)%bool then None else scan held true rest
  | EvSubprocessExit _ :: rest =>
      if running then scan held false rest else None
  | EvConnect _ :: rest =>
      if running then None else scan true running rest
  | EvClose _ :: rest =>
      if running then None else scan false running rest
  | _ :: rest =>
      if running then None else scan held running rest
  end.

(** Events that read or write files or the database, or start a process:
    everything but log lines. *)
Definition is_io (e : Event) : bool :=
  match e with
  | EvLog _ _ => false
  | _ => true
  end.

(** [pair] is one of the matches of the snapshot [k]. *)
Definition in_matches (k : Kapture) (pair : string * string) : Prop :=
  ∃ m, matches k = Some m ∧ pair ∈ m.

(** An attribute that is [None] or an empty container. *)
Definition missing_or_empty {C : Type} `{Empty C} (o : option C) : Prop :=
  o = None ∨ o = Some ∅.

(** No device with a pose in [t] is a rig of [r]. *)
Definition no_rig_reference (r : gmap string (gmap string Pose))
    (t : gmap Z (gmap string Pose)) : Prop :=
  ∀ (timestamp : Z) (poses : gmap string Pose) (device : string),
    t !! timestamp = Some poses → is_Some (poses !! device) → r !! device = None.

(** The rigs of [r] nest without a cycle: [rank] goes down from a rig to
    the rigs among its members, and stays under the number of rigs. *)
Definition well_nested (r : gmap string (gmap string Pose))
    (rank : string → nat) : Prop :=
  (∀ rig, is_Some (r !! rig) → (rank rig < size r)%nat) ∧
  (∀ rig members member,
     r !! rig = Some members → is_Some (members !! member) →
     is_Some (r !! member) → (rank member < rank rig)%nat).

(** Every rig with a pose in [poses] has a rank under [n]. *)
Definition rigs_below (r : gmap string (gmap string Pose))
    (rank : string → nat) (n : nat) (poses : gmap string Pose) : Prop :=
  ∀ device, is_Some (poses !! device) → is_Some (r !! device) →
            (rank device < n)%nat.

(** ** Notions used in the statements *)

(** The outcome of a continuation, after events that came before it. *)
Definition after {A : Type} (before : list Event) (o : Outcome A) : Outcome A :=
  mkOutcome (res o) (final o) (before ++ events o).

(** The log line of lines 56-60, when there is one. *)
Definition rigs_log (k : Kapture) : list Event :=
  match rigs k, trajectories k with
  | Some _, Some _ => [EvLog INFO "remove rigs notation."]
  | _, _ => []
  end.

(** The steps that are not skipped, in the order of the script. *)
Definition planned_steps (skip_list : list string) : list string :=
  filter (λ name, name ∉ skip_list) all_steps.

(** A block that starts without a handle and without a running subprocess
    ends without a running subprocess, and without a handle when it ends
    normally. *)
Definition handles_in_order {A : Type} (m : M A) : Prop :=
  ∀ w, ∃ held,
    scan false false (events (m w)) = Some (held, false) ∧
    (∀ a, res (m w) = Ok a → held = false).

(** ** Lines 27-41: [run_colmap_gv], from two dataset directories *)

(** [kapture_from_dir(dirpath, pairsfile_path)] belongs to kapture and is
    taken as given: it reads a dataset from the files, leaves them as they
    are, and fails with a message when it cannot. *)
Definition load_kapture
    (kapture_from_dir : string → option string → gmap string string →
                        string + Kapture)
    (dirpath : string) (pairsfile_path : option string) : M Kapture :=
  call "kapture_from_dir"
    (λ fs, (kapture_from_dir dirpath pairsfile_path fs, fs)).

(** Lines 27-41.  The object loaded first is the one the orchestrator gets
    as [kapture_none_matches]: it is put into [loaded_none_matches] at the
    call. *)
Definition run_colmap_gv
    (kapture_from_dir : string → option string → gmap string string →
                        string + Kapture)
    (kapture_none_matches_dirpath kapture_colmap_matches_dirpath
       colmap_binary : string)
    (pairsfile_path : option string)
    (skip_list : list string) (force : bool) : M unit :=
  kapture_none_matches ←
    load_kapture kapture_from_dir kapture_none_matches_dirpath pairsfile_path;
  kapture_colmap_matches ←
    load_kapture kapture_from_dir kapture_colmap_matches_dirpath pairsfile_path;
  modify (set_loaded kapture_none_matches);;
  run_colmap_gv_from_loaded_data kapture_colmap_matches
    kapture_none_matches_dirpath kapture_colmap_matches_dirpath
    colmap_binary skip_list force.

(** ** More notions used in the statements *)


(** ** The steps as a list

    A second description of lines 62-110, in the spec's words: the steps
    "in order, each individually skippable by name". *)

(** The step [name] as it runs when nothing is skipped. *)
Definition unskipped_step (kapture_colmap_matches : Kapture)
    (kapture_none_matches_dirpath kapture_colmap_matches_dirpath
       colmap_binary : string)
    (force : bool) (name : string) : M unit :=
  let db_path := colmap_db_path kapture_colmap_matches_dirpath in
  if String.eqb name "delete_existing" then
    step_delete_existing db_path [] force
  else if String.eqb name "matches_importer" then
    step_matches_importer kapture_colmap_matches kapture_none_matches_dirpath
      db_path colmap_binary [] force
  else if String.eqb name "import" then
    step_import kapture_colmap_matches_dirpath db_path []
  else if String.eqb name "delete_db" then
    step_delete_db db_path []
  else ret tt.

(** The steps [names], one after the other. *)
Fixpoint perform (kapture_colmap_matches : Kapture)
    (kapture_none_matches_dirpath kapture_colmap_matches_dirpath
       colmap_binary : string)
    (force : bool) (names : list string) : M unit :=
  match names with
  | [] => ret tt
  | name :: rest =>
      unskipped_step kapture_colmap_matches kapture_none_matches_dirpath
        kapture_colmap_matches_dirpath colmap_binary force name;;
      perform kapture_colmap_matches kapture_none_matches_dirpath
        kapture_colmap_matches_dirpath colmap_binary force rest
  end.

(** The events of the matches_importer step from its first line to its
    last (lines 68-95), when every call goes through. *)
Definition matches_importer_trace (colmap_binary kapture_none_matches_dirpath
    db_path : string) (package : Kapture) : list Event :=
  [EvLog DEBUG "compute matches difference.";
   EvLog DEBUG "export matches difference to db.";
   EvConnect db_path;
   EvKaptureToColmap package kapture_none_matches_dirpath db_path false;
   EvClose db_path;
   EvLog DEBUG "run matches_importer command.";
   EvSubprocessLaunch colmap_binary db_path true;
   EvSubprocessExit 0].

(** The events of the import step (lines 98-106), when every call goes
    through. *)
Definition import_trace (kapture_colmap_matches_dirpath db_path : string)
    : list Event :=
  [EvLog DEBUG "import verified matches.";
   EvUmask 2;
   EvConnect db_path;
   EvGetImagesAndTrajectories db_path;
   EvGetMatches db_path kapture_colmap_matches_dirpath false;
   EvClose db_path].

(** The events of the delete_db step (lines 109-110). *)
Definition delete_db_trace (db_path : string) : list Event :=
  [EvLog DEBUG "delete intermediate colmap db."; EvOsRemove db_path].

(** What [safe_remove_file] may cause after it is called: a question about
    the file and its removal. *)
Definition removal_event (db_path : string) (e : Event) : Prop :=
  match e with
  | EvConfirm p _ | EvFileRemoved p => p = db_path
  | _ => False
  end.


End Orchestrator.


(** * A run on a small dataset

    Poses are positions on a line and compose by addition.  One camera in
    one rig, three images, three unverified pairs of which one is verified
    already.  The collaborators succeed: connecting creates the database file
    when there is none, the export and the COLMAP process rewrite it. *)

Definition demo_none_matches : Kapture Z :=
  mkKapture
    (Some {["cam0" := mkSensor "camera" ["SIMPLE_PINHOLE"; "640"; "480"]]})
    (Some {["rig" := {["cam0" := 1]}]})
    (Some {[0 := {["rig" := 10]}]})
    (Some {[0 := {["cam0" := "a.jpg"]}]})
    (Some {["a.jpg"; "b.jpg"; "c.jpg"]})
    (Some {[("a.jpg", "b.jpg"); ("a.jpg", "c.jpg"); ("b.jpg", "c.jpg")]}).

Definition demo_colmap_matches : Kapture Z :=
  mkKapture None None None None None (Some {[("a.jpg", "b.jpg")]}).

Definition demo_collaborators : Collaborators := {|
  raises_value_error who msg := false;
  Pose := Z;
  pose_compose := Z.add;
  colmap_connect path fs :=
    (inr tt, match fs !! path with Some _ => fs | None => <[path := "empty"]> fs end);
  kapture_to_colmap kapture_data kapture_dirpath db_path two_view fs :=
    (inr tt, <[db_path := "exported"]> fs);
  colmap_process binary db_path use_cpu kapture_data force fs :=
    (0, <[db_path := "verified"]> fs);
  get_images_and_trajectories_from_database db_path fs :=
    (inr ({[0 := {["cam0" := "a.jpg"]}]}, ∅), fs);
  get_matches_from_database db_path records kapture_dirpath no_filtering fs :=
    (inr {[("a.jpg", "c.jpg")]}, fs)
|}.

Definition demo_state (fs : gmap string string) (replies : list bool)
    : State Z :=
  mkState demo_none_matches fs 18 replies.

Abbreviation demo_run skip_list force fs replies :=
  (run_colmap_gv_from_loaded_data (H := demo_collaborators)
     demo_colmap_matches "in" "out" "colmap"
     skip_list force (demo_state fs replies)).

Definition demo_pairs : gset (string * string) :=
  {[("a.jpg", "b.jpg"); ("a.jpg", "c.jpg"); ("b.jpg", "c.jpg")]}.

Definition demo_rigs : gmap string (gmap string Z) :=
  {["rig" := {["cam0" := 1]}]}.


(** The collaborators of the small run again, but the COLMAP process exits
    with code 1, and the call that ran it raises a [ValueError]. *)
Definition demo_colmap_fails : Collaborators := {|
  raises_value_error who msg := true;
  Pose := Z;
  pose_compose := Z.add;
  colmap_connect := colmap_connect (Collaborators := demo_collaborators);
  kapture_to_colmap := kapture_to_colmap (Collaborators := demo_collaborators);
  colmap_process binary db_path use_cpu kapture_data force fs := (1, fs);
  get_images_and_trajectories_from_database :=
    get_images_and_trajectories_from_database
      (Collaborators := demo_collaborators);
  get_matches_from_database :=
    get_matches_from_database (Collaborators := demo_collaborators)
|}.

(** Rigs in rigs: the camera is in "sub", and "sub" is in "rig". *)
Definition demo_nested_rigs : gmap string (gmap string Z) :=
  {["rig" := {["sub" := 1]}; "sub" := {["cam0" := 2]}]}.

(** Two dataset directories, "in" and "out", and nothing else. *)
Definition demo_from_dir (dirpath : string) (pairsfile_path : option string)
    (fs : gmap string string) : string + Kapture Z :=
  if String.eqb dirpath "in" then inr demo_none_matches
  else if String.eqb dirpath "out" then inr demo_colmap_matches
  else inl "not a kapture directory".

(** * Properties *)

Section Properties.

Context `{Collaborators}.

#[local] Abbreviation Kapture := (Kapture Pose).
#[local] Abbreviation Event := (Event Pose).
#[local] Abbreviation State := (State Pose).
#[local] Abbreviation Outcome := (Outcome Pose).
#[local] Abbreviation M := (M Pose).


(** ** Laws of the monad *)

Lemma bind_Ok {A B : Type} (m : M A) (k : A → M B) (w : State) (a : A) :
  res (m w) = Ok a →
  (m ≫= k) w =
    mkOutcome (res (k a (final (m w)))) (final (k a (final (m w))))
      (events (m w) ++ events (k a (final (m w)))).
Proof.
  unfold mbind, M_bind, bind. destruct (m w) as [r w1 ev1]; simpl.
  intros ->. by destruct (k a w1).
Qed.

Lemma bind_Raise {A B : Type} (m : M A) (k : A → M B) (w : State) (e : exn) :
  res (m w) = Raise e →
  (m ≫= k) w = mkOutcome (Raise e) (final (m w)) (events (m w)).
Proof.
  unfold mbind, M_bind, bind. destruct (m w) as [r w1 ev1]; simpl.
  by intros ->.
Qed.

Lemma bind_assoc {A B C : Type} (m : M A) (f : A → M B) (g : B → M C)
    (w : State) :
  ((m ≫= f) ≫= g) w = (m ≫= (λ a, f a ≫= g)) w.
Proof.
  unfold mbind, M_bind, bind.
  destruct (m w) as [[a|e] w1 ev1]; simpl; [|done].
  destruct (f a w1) as [[b|e] w2 ev2]; simpl; [|done].
  destruct (g b w2) as [r w3 ev3]; simpl. by rewrite app_assoc.
Qed.

Lemma bind_ext {A B : Type} (m : M A) (k1 k2 : A → M B) (w : State) :
  (∀ a w', k1 a w' = k2 a w') → (m ≫= k1) w = (m ≫= k2) w.
Proof.
  intros Hk. unfold mbind, M_bind, bind.
  destruct (m w) as [[a|e] w1 ev1]; simpl; [|done]. by rewrite (Hk a w1).
Qed.

Lemma bind_ret_tt (m : M unit) (w : State) : (m;; ret tt) w = m w.
Proof.
  unfold mbind, M_bind, bind, ret.
  destruct (m w) as [[[]|e] w1 ev1]; by rewrite ?app_nil_r.
Qed.

Lemma bind_ret_l {A B : Type} (a : A) (k : A → M B) (w : State) :
  (ret a ≫= k) w = k a w.
Proof. unfold mbind, M_bind, bind, ret. by destruct (k a w). Qed.

Lemma outcome_eta {A : Type} (o : Outcome A) :
  mkOutcome (res o) (final o) (events o) = o.
Proof. by destruct o. Qed.

(** ** Truthiness *)

Lemma truthy_map_false {V : Type} (o : option (gmap string V)) :
  truthy o = false ↔ missing_or_empty o.
Proof.
  unfold truthy, missing_or_empty. destruct o as [m|]; [|by split; [left|]].
  rewrite negb_false_iff, Nat.eqb_eq, map_size_empty_iff.
  split; [intros ->; by right | by intros [|[= ->]]].
Qed.

Lemma truthy_zmap_false {V : Type} (o : option (gmap Z V)) :
  truthy o = false ↔ missing_or_empty o.
Proof.
  unfold truthy, missing_or_empty. destruct o as [m|]; [|by split; [left|]].
  rewrite negb_false_iff, Nat.eqb_eq, map_size_empty_iff.
  split; [intros ->; by right | by intros [|[= ->]]].
Qed.

Lemma truthy_set_false {K : Type} `{Countable K} (o : option (gset K)) :
  truthy o = false ↔ missing_or_empty o.
Proof.
  unfold truthy, missing_or_empty. destruct o as [m|]; [|by split; [left|]].
  rewrite negb_false_iff, Nat.eqb_eq, size_empty_iff.
  split; [intros ->%leibniz_equiv; by right | by intros [|[= ->]]].
Qed.

Lemma has_mandatory_false (k : Kapture) :
  has_mandatory k = false ↔
  missing_or_empty (records_camera k) ∨ missing_or_empty (sensors k) ∨
  missing_or_empty (keypoints k) ∨ missing_or_empty (matches k).
Proof.
  unfold has_mandatory.
  rewrite !andb_false_iff, truthy_zmap_false, truthy_map_false,
    !truthy_set_false.
  tauto.
Qed.

(** ** Running a block by cases *)

Arguments matches_to_verify : simpl never.
Arguments colmap_matches_of : simpl never.
Arguments kapture_data_to_export : simpl never.
Arguments rigs_remove_inplace : simpl never.
Arguments flattened : simpl never.
Arguments has_mandatory : simpl never.
Arguments colmap_db_path : simpl never.
Arguments py_in : simpl never.

Ltac unfold_blocks :=
  unfold step_delete_existing, step_matches_importer, step_import,
    step_delete_db, check_mandatory, remove_rigs, safe_remove_file,
    run_matches_importer_from_kapture, connect, close, call, collaborator_exn,
    log, os_remove, os_umask in *.

Ltac unfold_monad :=
  unfold emit, get, modify, raise, ret, mbind, M_bind, bind, mret, M_ret in *.

Ltac by_cases :=
  unfold_blocks; unfold_monad; simpl in *;
  repeat (case_match; simpl in *; simplify_eq/=); try done.

(** ** Cutting a run into its parts *)

Lemma bind_cases {A B : Type} (m : M A) (k : A → M B) (w : State) :
  (∃ a, res (m w) = Ok a ∧
        (m ≫= k) w = after (events (m w)) (k a (final (m w)))) ∨
  (∃ e, res (m w) = Raise e ∧
        (m ≫= k) w = mkOutcome (Raise e) (final (m w)) (events (m w))).
Proof.
  unfold mbind, M_bind, bind, after.
  destruct (m w) as [[a|e] w1 ev1]; simpl; [left|right; eauto].
  exists a. by destruct (k a w1).
Qed.

Lemma events_bind {A B : Type} (m : M A) (k : A → M B) (w : State) :
  events ((m ≫= k) w) =
  events (m w) ++
    match res (m w) with
    | Ok a => events (k a (final (m w)))
    | Raise _ => []
    end.
Proof.
  destruct (bind_cases m k w) as [(a & Hr & ->)|(e & Hr & ->)];
    rewrite Hr; simpl; by rewrite ?app_nil_r.
Qed.

Lemma res_bind {A B : Type} (m : M A) (k : A → M B) (w : State) :
  res ((m ≫= k) w) =
    match res (m w) with
    | Ok a => res (k a (final (m w)))
    | Raise e => Raise e
    end.
Proof.
  by destruct (bind_cases m k w) as [(a & Hr & ->)|(e & Hr & ->)]; rewrite Hr.
Qed.

Lemma final_bind {A B : Type} (m : M A) (k : A → M B) (w : State) :
  final ((m ≫= k) w) =
    match res (m w) with
    | Ok a => final (k a (final (m w)))
    | Raise e => final (m w)
    end.
Proof.
  by destruct (bind_cases m k w) as [(a & Hr & ->)|(e & Hr & ->)]; rewrite Hr.
Qed.

Lemma run_is_delete_existing_then_rest kc dn dc bin skip_list force w :
  run_colmap_gv_from_loaded_data kc dn dc bin skip_list force w =
  (run_through_delete_existing dc skip_list force;;
   run_after_delete_existing kc dn dc bin skip_list force) w.
Proof.
  unfold run_colmap_gv_from_loaded_data, run_through_delete_existing,
    run_after_delete_existing, run_before_steps.
  repeat (rewrite !bind_assoc || (apply bind_ext; intros [] ?)); done.
Qed.

Lemma run_is_import_then_delete_db kc dn dc bin skip_list force w :
  run_colmap_gv_from_loaded_data kc dn dc bin skip_list force w =
  (run_through_import kc dn dc bin skip_list force;;
   step_delete_db (colmap_db_path dc) skip_list) w.
Proof.
  unfold run_colmap_gv_from_loaded_data, run_through_import,
    run_through_delete_existing, run_before_steps.
  repeat (rewrite !bind_assoc || (apply bind_ext; intros [] ?)); done.
Qed.

(** ** Lines 51-60 *)

Lemma run_before_steps_incomplete w :
  has_mandatory (loaded_none_matches w) = false →
  run_before_steps w =
    mkOutcome (Raise (ValueError mandatory_msg)) w [EvLog INFO "run_colmap_gv..."].
Proof.
  intros Hm. unfold run_before_steps. unfold_blocks. unfold_monad. simpl.
  by rewrite Hm.
Qed.

Lemma run_before_steps_complete w :
  has_mandatory (loaded_none_matches w) = true →
  run_before_steps w =
    mkOutcome (Ok tt)
      (set_loaded (flattened (loaded_none_matches w)) w)
      (EvLog INFO "run_colmap_gv..." :: rigs_log (loaded_none_matches w)).
Proof.
  intros Hm. unfold run_before_steps, flattened, rigs_log.
  unfold_blocks. unfold_monad. simpl. rewrite Hm. simpl.
  destruct w as [k fs um an]; simpl.
  by destruct (rigs k), (trajectories k).
Qed.

Lemma run_is_checks_then_steps kc dn dc bin skip_list force w :
  run_colmap_gv_from_loaded_data kc dn dc bin skip_list force w =
  (run_before_steps;; run_steps kc dn dc bin skip_list force) w.
Proof.
  unfold run_colmap_gv_from_loaded_data, run_before_steps, run_steps.
  repeat (rewrite !bind_assoc || (apply bind_ext; intros [] ?)); done.
Qed.

Lemma run_incomplete kc dn dc bin skip_list force w :
  has_mandatory (loaded_none_matches w) = false →
  run_colmap_gv_from_loaded_data kc dn dc bin skip_list force w =
    mkOutcome (Raise (ValueError mandatory_msg)) w [EvLog INFO "run_colmap_gv..."].
Proof.
  intros Hm. rewrite run_is_checks_then_steps.
  destruct (bind_cases run_before_steps
              (λ _, run_steps kc dn dc bin skip_list force) w)
    as [(a & Hr & _)|(e & Hr & ->)];
    rewrite (run_before_steps_incomplete w Hm) in *; by simplify_eq/=.
Qed.

Lemma run_complete kc dn dc bin skip_list force w :
  has_mandatory (loaded_none_matches w) = true →
  run_colmap_gv_from_loaded_data kc dn dc bin skip_list force w =
    after (EvLog INFO "run_colmap_gv..." :: rigs_log (loaded_none_matches w))
      (run_steps kc dn dc bin skip_list force
         (set_loaded (flattened (loaded_none_matches w)) w)).
Proof.
  intros Hm. rewrite run_is_checks_then_steps.
  destruct (bind_cases run_before_steps
              (λ _, run_steps kc dn dc bin skip_list force) w)
    as [(a & Hr & ->)|(e & Hr & _)];
    rewrite (run_before_steps_complete w Hm) in *; by simplify_eq/=.
Qed.

(** ** Exceptions come after a call *)

Lemma events_Exists_bind {A B : Type} (P : Event → Prop) (m : M A)
    (k : A → M B) (w : State) (e : exn) :
  res ((m ≫= k) w) = Raise e →
  (res (m w) = Raise e → Exists P (events (m w))) →
  (∀ a, res (m w) = Ok a → res (k a (final (m w))) = Raise e →
        Exists P (events (k a (final (m w))))) →
  Exists P (events ((m ≫= k) w)).
Proof.
  rewrite res_bind, events_bind.
  destruct (res (m w)) as [a|e']; intros Hr Hm Hk; apply Exists_app.
  - right. exact (Hk a eq_refl Hr).
  - left. apply Hm. by injection Hr as ->.
Qed.

Lemma step_delete_existing_raise_after_io db_path skip_list force w e :
  res (step_delete_existing db_path skip_list force w) = Raise e →
  Exists (λ ev, is_io ev = true)
    (events (step_delete_existing db_path skip_list force w)).
Proof. by_cases; repeat first [by left | right]. Qed.

Lemma step_matches_importer_raise_after_io
    kc dn db_path bin skip_list force w um e :
  matches (loaded_none_matches w) = Some um →
  res (step_matches_importer kc dn db_path bin skip_list force w) = Raise e →
  Exists (λ ev, is_io ev = true)
    (events (step_matches_importer kc dn db_path bin skip_list force w)).
Proof. intros Hum. by_cases; repeat first [by left | right]. Qed.

Lemma step_import_raise_after_io dc db_path skip_list w e :
  res (step_import dc db_path skip_list w) = Raise e →
  Exists (λ ev, is_io ev = true) (events (step_import dc db_path skip_list w)).
Proof. by_cases; repeat first [by left | right]. Qed.

Lemma step_delete_db_raise_after_io db_path skip_list w e :
  res (step_delete_db db_path skip_list w) = Raise e →
  Exists (λ ev, is_io ev = true) (events (step_delete_db db_path skip_list w)).
Proof. by_cases; repeat first [by left | right]. Qed.

Lemma step_delete_existing_loaded db_path skip_list force w :
  loaded_none_matches (final (step_delete_existing db_path skip_list force w)) =
  loaded_none_matches w.
Proof. by_cases. Qed.

Lemma run_steps_raise_after_io kc dn dc bin skip_list force w um e :
  matches (loaded_none_matches w) = Some um →
  res (run_steps kc dn dc bin skip_list force w) = Raise e →
  Exists (λ ev, is_io ev = true)
    (events (run_steps kc dn dc bin skip_list force w)).
Proof.
  intros Hum Hr. unfold run_steps in *. cbv zeta in *.
  apply (events_Exists_bind _ _ _ _ e Hr);
    [apply step_delete_existing_raise_after_io|].
  intros [] _ Hr1.
  apply (events_Exists_bind _ _ _ _ e Hr1).
  { apply (step_matches_importer_raise_after_io _ _ _ _ _ _ _ um).
    by rewrite step_delete_existing_loaded. }
  intros [] _ Hr2.
  apply (events_Exists_bind _ _ _ _ e Hr2);
    [apply step_import_raise_after_io|].
  intros [] _ Hr3. by eapply step_delete_db_raise_after_io.
Qed.

Lemma has_mandatory_matches k :
  has_mandatory k = true → ∃ um, matches k = Some um.
Proof.
  unfold has_mandatory. rewrite !andb_true_iff. intros (_ & Hm).
  destruct (matches k); [eauto | done].
Qed.

Lemma flattened_fields k :
  sensors (flattened k) = sensors k ∧ rigs (flattened k) = rigs k ∧
  records_camera (flattened k) = records_camera k ∧
  keypoints (flattened k) = keypoints k ∧ matches (flattened k) = matches k.
Proof. unfold flattened. by destruct k as [? [?|] [?|] ? ? ?]. Qed.

(** C2, as the code has it: the run raises its configuration error, the
    [ValueError] of line 54, before any database, file or process event
    exactly when the image records, the sensors, the keypoints or the
    matches of the unverified snapshot are missing or empty; it then stops
    right after its first log line, the state, and with it every file, as it
    was.  With the four collections there, whatever exception ends the run
    comes after such an event: it is the exception of a call, a
    [ValueError] included, let through as it is. *)
Theorem mandatory_check_aborts_before_io kc dn dc bin skip_list force w :
  let o := run_colmap_gv_from_loaded_data kc dn dc bin skip_list force w in
  let k := loaded_none_matches w in
  let incomplete :=
    missing_or_empty (records_camera k) ∨ missing_or_empty (sensors k) ∨
    missing_or_empty (keypoints k) ∨ missing_or_empty (matches k) in
  ((res o = Raise (ValueError mandatory_msg) ∧
    Forall (λ e, is_io e = false) (events o)) ↔ incomplete) ∧
  (incomplete →
     res o = Raise (ValueError mandatory_msg) ∧
     final o = w ∧
     events o = [EvLog INFO "run_colmap_gv..."]) ∧
  (¬ incomplete →
     ∀ e, res o = Raise e → Exists (λ ev, is_io ev = true) (events o)).
Proof.
  intros o k incomplete. subst o incomplete k.
  rewrite <- has_mandatory_false.
  destruct (has_mandatory (loaded_none_matches w)) eqn:Hm.
  - assert (∀ e,
        res (run_colmap_gv_from_loaded_data kc dn dc bin skip_list force w) =
          Raise e →
        Exists (λ ev, is_io ev = true)
          (events (run_colmap_gv_from_loaded_data kc dn dc bin skip_list
                     force w))) as Hio.
    { intros e. rewrite run_complete by done. simpl. intros Hr.
      destruct (has_mandatory_matches _ Hm) as [um Hum].
      apply Exists_cons; right. apply Exists_app; right.
      apply (run_steps_raise_after_io _ _ _ _ _ _ _ um e); [|done].
      simpl. by rewrite (proj2 (proj2 (proj2 (proj2 (flattened_fields _))))). }
    split; [|split; [done|by intros _]].
    split; [|done]. intros [Hr Hnone]. apply Hio in Hr.
    apply Exists_exists in Hr as (ev & Hin & Hev).
    rewrite Forall_forall in Hnone. specialize (Hnone ev Hin). congruence.
  - rewrite run_incomplete by done. simpl.
    split; [|split; [done|intros Hn; by destruct Hn]].
    split; [done|]. intros _. split; [done|]. by repeat constructor.
Qed.

(** ** The steps a run starts *)

Lemma step_delete_existing_started db_path skip_list force w :
  steps_started (events (step_delete_existing db_path skip_list force w)) =
  if py_in "delete_existing" skip_list then [] else ["delete_existing"].
Proof. unfold steps_started. by_cases. Qed.

Lemma step_matches_importer_started kc dn db_path bin skip_list force w :
  steps_started
    (events (step_matches_importer kc dn db_path bin skip_list force w)) =
  if py_in "matches_importer" skip_list then [] else ["matches_importer"].
Proof. unfold steps_started. by_cases. Qed.

Lemma step_import_started dc db_path skip_list w :
  steps_started (events (step_import dc db_path skip_list w)) =
  if py_in "import" skip_list then [] else ["import"].
Proof. unfold steps_started. by_cases. Qed.

Lemma step_delete_db_started db_path skip_list w :
  steps_started (events (step_delete_db db_path skip_list w)) =
  if py_in "delete_db" skip_list then [] else ["delete_db"].
Proof. unfold steps_started. by_cases. Qed.

Lemma steps_started_app l1 l2 :
  steps_started (l1 ++ l2) = steps_started l1 ++ steps_started l2.
Proof. apply omap_app. Qed.

Lemma rigs_log_started k : steps_started (rigs_log k) = [].
Proof. unfold rigs_log. by destruct (rigs k), (trajectories k). Qed.

Lemma rigs_log_not_io k : Forall (λ e, is_io e = false) (rigs_log k).
Proof.
  unfold rigs_log. destruct (rigs k), (trajectories k); by repeat constructor.
Qed.

Lemma planned_steps_unfold skip_list :
  planned_steps skip_list =
  (if py_in "delete_existing" skip_list then [] else ["delete_existing"]) ++
  (if py_in "matches_importer" skip_list then [] else ["matches_importer"]) ++
  (if py_in "import" skip_list then [] else ["import"]) ++
  (if py_in "delete_db" skip_list then [] else ["delete_db"]).
Proof.
  unfold planned_steps, all_steps, py_in.
  rewrite !filter_cons, filter_nil.
  repeat case_bool_decide; repeat case_decide; done.
Qed.

Lemma run_steps_started kc dn dc bin skip_list force w :
  let o := run_steps kc dn dc bin skip_list force w in
  steps_started (events o) `prefix_of` planned_steps skip_list ∧
  (res o = Ok tt → steps_started (events o) = planned_steps skip_list).
Proof.
  intros o; subst o. rewrite planned_steps_unfold. unfold run_steps.
  cbv zeta. rewrite !events_bind, !res_bind.
  repeat match goal with
  | |- context [res (?step ?w')] =>
      lazymatch step with
      | step_delete_db _ _ => fail
      | _ => destruct (res (step w')) as [[]|?]
      end
  end;
    rewrite ?steps_started_app;
    rewrite ?step_delete_existing_started, ?step_matches_importer_started,
      ?step_import_started, ?step_delete_db_started;
    repeat match goal with |- context [py_in ?s skip_list] =>
      destruct (py_in s skip_list) end;
    simpl; (split; [by eexists | done]).
Qed.

(** ** The steps, one by one *)

Lemma py_in_nil name : py_in name [] = false.
Proof. unfold py_in. apply bool_decide_eq_false, not_elem_of_nil. Qed.

Lemma py_in_false name skip_list :
  py_in name skip_list = false ↔ name ∉ skip_list.
Proof. unfold py_in. apply bool_decide_eq_false. Qed.

Lemma step_delete_existing_skip db_path skip_list force :
  step_delete_existing db_path skip_list force =
  if py_in "delete_existing" skip_list then ret tt
  else step_delete_existing db_path [] force.
Proof.
  unfold step_delete_existing. rewrite py_in_nil. by destruct (py_in _ _).
Qed.

Lemma step_matches_importer_skip kc dn db_path bin skip_list force :
  step_matches_importer kc dn db_path bin skip_list force =
  if py_in "matches_importer" skip_list then ret tt
  else step_matches_importer kc dn db_path bin [] force.
Proof.
  unfold step_matches_importer. rewrite py_in_nil. by destruct (py_in _ _).
Qed.

Lemma step_import_skip dc db_path skip_list :
  step_import dc db_path skip_list =
  if py_in "import" skip_list then ret tt else step_import dc db_path [].
Proof. unfold step_import. rewrite py_in_nil. by destruct (py_in _ _). Qed.

Lemma step_delete_db_skip db_path skip_list :
  step_delete_db db_path skip_list =
  if py_in "delete_db" skip_list then ret tt else step_delete_db db_path [].
Proof. unfold step_delete_db. rewrite py_in_nil. by destruct (py_in _ _). Qed.

Lemma unskipped_delete_existing kc dn dc bin force :
  unskipped_step kc dn dc bin force "delete_existing" =
  step_delete_existing (colmap_db_path dc) [] force.
Proof. reflexivity. Qed.

Lemma unskipped_matches_importer kc dn dc bin force :
  unskipped_step kc dn dc bin force "matches_importer" =
  step_matches_importer kc dn (colmap_db_path dc) bin [] force.
Proof. reflexivity. Qed.

Lemma unskipped_import kc dn dc bin force :
  unskipped_step kc dn dc bin force "import" =
  step_import dc (colmap_db_path dc) [].
Proof. reflexivity. Qed.

Lemma unskipped_delete_db kc dn dc bin force :
  unskipped_step kc dn dc bin force "delete_db" =
  step_delete_db (colmap_db_path dc) [].
Proof. reflexivity. Qed.

Lemma run_steps_perform kc dn dc bin skip_list force w :
  run_steps kc dn dc bin skip_list force w =
  perform kc dn dc bin force (planned_steps skip_list) w.
Proof.
  rewrite planned_steps_unfold. unfold run_steps. cbv zeta.
  rewrite (step_delete_existing_skip _ skip_list),
    (step_matches_importer_skip _ _ _ _ skip_list),
    (step_import_skip _ _ skip_list), (step_delete_db_skip _ skip_list).
  destruct (py_in "delete_existing" skip_list),
    (py_in "matches_importer" skip_list), (py_in "import" skip_list),
    (py_in "delete_db" skip_list);
    cbn [app perform];
    rewrite ?unskipped_delete_existing, ?unskipped_matches_importer,
      ?unskipped_import, ?unskipped_delete_db;
    repeat first
      [ reflexivity
      | rewrite bind_ret_l
      | rewrite bind_ret_tt
      | apply bind_ext; intros [] ? ].
Qed.

Lemma step_delete_existing_trace db_path skip_list force w :
  res (step_delete_existing db_path skip_list force w) = Ok tt →
  ∃ removal,
    Forall (removal_event db_path) removal ∧
    events (step_delete_existing db_path skip_list force w) =
    if py_in "delete_existing" skip_list then []
    else EvSafeRemoveFile db_path force :: removal.
Proof.
  by_cases; eexists; (split; [|reflexivity]); by repeat constructor.
Qed.

Lemma step_matches_importer_trace kc dn db_path bin skip_list force w um :
  matches (loaded_none_matches w) = Some um →
  res (step_matches_importer kc dn db_path bin skip_list force w) = Ok tt →
  events (step_matches_importer kc dn db_path bin skip_list force w) =
  if py_in "matches_importer" skip_list then []
  else matches_importer_trace bin dn db_path
         (kapture_data_to_export (loaded_none_matches w)
            (matches_to_verify um kc)).
Proof.
  intros Hum. by_cases.
  all: match goal with
       | Hcode : (_ =? 0) = true |- _ => apply Z.eqb_eq in Hcode as ->
       end; done.
Qed.

Lemma step_import_trace dc db_path skip_list w :
  res (step_import dc db_path skip_list w) = Ok tt →
  events (step_import dc db_path skip_list w) =
  if py_in "import" skip_list then [] else import_trace dc db_path.
Proof. by_cases. Qed.

Lemma step_delete_db_trace db_path skip_list w :
  res (step_delete_db db_path skip_list w) = Ok tt →
  events (step_delete_db db_path skip_list w) =
  if py_in "delete_db" skip_list then [] else delete_db_trace db_path.
Proof. by_cases. Qed.

Lemma run_steps_trace kc dn dc bin skip_list force w um :
  matches (loaded_none_matches w) = Some um →
  res (run_steps kc dn dc bin skip_list force w) = Ok tt →
  ∃ removal,
    Forall (removal_event (colmap_db_path dc)) removal ∧
    events (run_steps kc dn dc bin skip_list force w) =
    (if py_in "delete_existing" skip_list then []
     else EvSafeRemoveFile (colmap_db_path dc) force :: removal) ++
    (if py_in "matches_importer" skip_list then []
     else matches_importer_trace bin dn (colmap_db_path dc)
            (kapture_data_to_export (loaded_none_matches w)
               (matches_to_verify um kc))) ++
    (if py_in "import" skip_list then []
     else import_trace dc (colmap_db_path dc)) ++
    (if py_in "delete_db" skip_list then []
     else delete_db_trace (colmap_db_path dc)).
Proof.
  intros Hum. unfold run_steps. cbv zeta. rewrite !events_bind, !res_bind.
  destruct (res (step_delete_existing _ _ _ w)) as [[]|?] eqn:H1; [|done].
  destruct (step_delete_existing_trace _ _ _ _ H1) as (removal & Hrem & ->).
  set (w1 := final (step_delete_existing (colmap_db_path dc) skip_list force w)).
  assert (matches (loaded_none_matches w1) = Some um) as Hum1
    by (subst w1; by rewrite step_delete_existing_loaded).
  destruct (res (step_matches_importer _ _ _ _ _ _ w1)) as [[]|?] eqn:H2;
    [|done].
  rewrite (step_matches_importer_trace _ _ _ _ _ _ _ um Hum1 H2).
  replace (loaded_none_matches w1) with (loaded_none_matches w)
    by (subst w1; by rewrite step_delete_existing_loaded).
  destruct (res (step_import _ _ _ _)) as [[]|?] eqn:H3; [|done].
  rewrite (step_import_trace _ _ _ _ H3).
  intros H4. rewrite (step_delete_db_trace _ _ _ H4). by exists removal.
Qed.

Lemma elem_of_segment (X : Event) (s : bool) (l : list Event) :
  X ∈ (if s then [] else l) ↔ s = false ∧ X ∈ l.
Proof. destruct s; rewrite ?elem_of_nil; intuition discriminate. Qed.

Lemma normal_trace_actions (head removal : list Event) kc_dirpath dn bin p
    force package (s1 s2 s3 s4 : bool) :
  Forall (λ e, is_io e = false) head →
  Forall (removal_event p) removal →
  let l :=
    head ++
    (if s1 then [] else EvSafeRemoveFile p force :: removal) ++
    (if s2 then [] else matches_importer_trace bin dn p package) ++
    (if s3 then [] else import_trace kc_dirpath p) ++
    (if s4 then [] else delete_db_trace p) in
  (EvSafeRemoveFile p force ∈ l ↔ s1 = false) ∧
  (EvSubprocessLaunch bin p true ∈ l ↔ s2 = false) ∧
  (EvGetMatches p kc_dirpath false ∈ l ↔ s3 = false) ∧
  (EvOsRemove p ∈ l ↔ s4 = false).
Proof.
  intros Hhead Hrem l; subst l.
  rewrite Forall_forall in Hhead. rewrite Forall_forall in Hrem.
  assert (∀ X, is_io X = true → X ∈ head ↔ False) as Hh.
  { intros X HX. split; [|done]. intros Hin. specialize (Hhead X Hin).
    congruence. }
  assert (∀ X, ¬ removal_event p X → X ∈ removal ↔ False) as Hr.
  { intros X HX. split; [|done]. intros Hin. by apply HX, Hrem. }
  clear Hhead Hrem.
  rewrite !elem_of_app, !elem_of_segment.
  unfold matches_importer_trace, import_trace, delete_db_trace.
  rewrite !elem_of_cons, !elem_of_nil.
  rewrite !Hh by done. rewrite !Hr by (simpl; tauto).
  repeat split; intuition (discriminate || auto).
Qed.

(** C4: whatever the skip list, the run is its first lines followed by the
    steps that are not skipped, each as it runs when nothing is skipped, in
    the order delete_existing, matches_importer, import, delete_db: a step
    in the skip list does nothing, and the others run as if nothing were
    skipped.  The steps started are a prefix of the steps not skipped when an
    exception cuts the run short, and all of them when the run ends normally.
    A run that ends normally has then, after its first log lines, exactly the
    calls of each step that is not skipped, from its first to its last, in
    that order and nothing else; so the file removal of delete_existing, the
    launch of matches_importer, the reading of the matches of import and the
    removal of delete_db each happen exactly when the step is not in the skip
    list. *)
Theorem steps_in_order_unless_skipped kc dn dc bin skip_list force w :
  let o := run_colmap_gv_from_loaded_data kc dn dc bin skip_list force w in
  let k := loaded_none_matches w in
  let p := colmap_db_path dc in
  o = (run_before_steps;;
       perform kc dn dc bin force (planned_steps skip_list)) w ∧
  (∀ name, name ∈ planned_steps skip_list ↔
           name ∈ all_steps ∧ name ∉ skip_list) ∧
  steps_started (events o) `prefix_of` planned_steps skip_list ∧
  (res o = Ok tt →
     steps_started (events o) = planned_steps skip_list ∧
     (∀ name, name ∈ steps_started (events o) ↔
              name ∈ all_steps ∧ name ∉ skip_list) ∧
     ∃ um removal,
       matches k = Some um ∧
       Forall (removal_event p) removal ∧
       events o =
         (EvLog INFO "run_colmap_gv..." :: rigs_log k) ++
         (if py_in "delete_existing" skip_list then []
          else EvSafeRemoveFile p force :: removal) ++
         (if py_in "matches_importer" skip_list then []
          else matches_importer_trace bin dn p
                 (kapture_data_to_export (flattened k)
                    (matches_to_verify um kc))) ++
         (if py_in "import" skip_list then [] else import_trace dc p) ++
         (if py_in "delete_db" skip_list then [] else delete_db_trace p) ∧
       (EvSafeRemoveFile p force ∈ events o ↔
          "delete_existing" ∉ skip_list) ∧
       (EvSubprocessLaunch bin p true ∈ events o ↔
          "matches_importer" ∉ skip_list) ∧
       (EvGetMatches p dc false ∈ events o ↔ "import" ∉ skip_list) ∧
       (EvOsRemove p ∈ events o ↔ "delete_db" ∉ skip_list)).
Proof.
  intros o k p; subst o k p.
  assert (∀ name, name ∈ planned_steps skip_list ↔
                  name ∈ all_steps ∧ name ∉ skip_list) as Hplanned.
  { intros name. unfold planned_steps.
    by rewrite list_elem_of_filter, (comm and). }
  split; [|split; [done|]].
  { rewrite run_is_checks_then_steps. apply bind_ext. intros [] w'.
    apply run_steps_perform. }
  destruct (has_mandatory (loaded_none_matches w)) eqn:Hm.
  2: { rewrite run_incomplete by done. simpl.
       split; [apply prefix_nil | done]. }
  rewrite run_complete by done. simpl.
  change (omap step_started ?l) with (steps_started l).
  rewrite !steps_started_app, rigs_log_started. simpl.
  destruct (run_steps_started kc dn dc bin skip_list force
              (set_loaded (flattened (loaded_none_matches w)) w))
    as [Hpre Hall].
  split; [done|]. intros Hok. specialize (Hall Hok). split; [done|].
  split; [intros name; by rewrite Hall|].
  destruct (has_mandatory_matches _ Hm) as [um Hum].
  destruct (run_steps_trace kc dn dc bin skip_list force
              (set_loaded (flattened (loaded_none_matches w)) w) um)
    as (removal & Hrem & Hev); [|done|].
  { simpl. by rewrite (proj2 (proj2 (proj2 (proj2 (flattened_fields _))))). }
  simpl in Hev. exists um, removal. split; [done|]. split; [done|].
  rewrite Hev. split; [done|].
  rewrite <- !py_in_false.
  change (EvLog INFO "run_colmap_gv..." :: rigs_log (loaded_none_matches w) ++
          ?rest)
    with ((EvLog INFO "run_colmap_gv..." :: rigs_log (loaded_none_matches w))
          ++ rest).
  apply normal_trace_actions; [|done].
  constructor; [done|]. apply rigs_log_not_io.
Qed.

(** ** What a run exports *)

Lemma exported_app l1 l2 : exported (l1 ++ l2) = exported l1 ++ exported l2.
Proof. apply omap_app. Qed.

Lemma rigs_log_exported k : exported (rigs_log k) = [].
Proof. unfold rigs_log. by destruct (rigs k), (trajectories k). Qed.

Lemma step_delete_existing_exported db_path skip_list force w :
  exported (events (step_delete_existing db_path skip_list force w)) = [].
Proof. unfold exported. by_cases. Qed.

Lemma step_import_exported dc db_path skip_list w :
  exported (events (step_import dc db_path skip_list w)) = [].
Proof. unfold exported. by_cases. Qed.

Lemma step_delete_db_exported db_path skip_list w :
  exported (events (step_delete_db db_path skip_list w)) = [].
Proof. unfold exported. by_cases. Qed.

Lemma step_matches_importer_exported kc dn db_path bin skip_list force w um :
  let o := step_matches_importer kc dn db_path bin skip_list force w in
  let package :=
    kapture_data_to_export (loaded_none_matches w) (matches_to_verify um kc) in
  matches (loaded_none_matches w) = Some um →
  (exported (events o) = [] ∨
   exported (events o) = [(package, dn, db_path, false)]) ∧
  (py_in "matches_importer" skip_list = true → exported (events o) = []) ∧
  (py_in "matches_importer" skip_list = false → res o = Ok tt →
   exported (events o) = [(package, dn, db_path, false)]).
Proof.
  intros o package Hum; subst o package. unfold exported.
  unfold step_matches_importer.
  destruct (py_in "matches_importer" skip_list) eqn:Hskip;
    by_cases; repeat split; auto; done.
Qed.

Lemma run_steps_exported kc dn dc bin skip_list force w um :
  let o := run_steps kc dn dc bin skip_list force w in
  let package :=
    kapture_data_to_export (loaded_none_matches w) (matches_to_verify um kc) in
  matches (loaded_none_matches w) = Some um →
  (exported (events o) = [] ∨
   exported (events o) = [(package, dn, colmap_db_path dc, false)]) ∧
  (py_in "matches_importer" skip_list = true → exported (events o) = []) ∧
  (py_in "matches_importer" skip_list = false → res o = Ok tt →
   exported (events o) = [(package, dn, colmap_db_path dc, false)]).
Proof.
  intros o package Hum; subst o package. unfold run_steps. cbv zeta.
  rewrite !events_bind, !res_bind.
  set (w1 := final (step_delete_existing (colmap_db_path dc) skip_list force w)).
  assert (matches (loaded_none_matches w1) = Some um) as Hum1
    by (subst w1; by rewrite step_delete_existing_loaded).
  pose proof (step_matches_importer_exported kc dn (colmap_db_path dc) bin
                skip_list force w1 um) as Hstep.
  simpl in Hstep. specialize (Hstep Hum1).
  replace (loaded_none_matches w1) with (loaded_none_matches w) in Hstep
    by (subst w1; by rewrite step_delete_existing_loaded).
  destruct Hstep as (Hor & Hskip & Hrun).
  rewrite exported_app, step_delete_existing_exported. simpl.
  destruct (res (step_delete_existing _ _ _ w)) as [[]|?]; simpl.
  2: { repeat split; auto; done. }
  rewrite exported_app.
  destruct (res (step_matches_importer _ _ _ _ _ _ w1)) as [[]|?]; simpl.
  2: { rewrite app_nil_r. repeat split; auto; done. }
  rewrite exported_app, step_import_exported. simpl.
  destruct (res (step_import _ _ _ _)) as [[]|?]; simpl;
    rewrite ?step_delete_db_exported, app_nil_r;
    repeat split; auto; done.
Qed.

Lemma run_exported kc dn dc bin skip_list force w um :
  let o := run_colmap_gv_from_loaded_data kc dn dc bin skip_list force w in
  let package :=
    kapture_data_to_export (flattened (loaded_none_matches w))
      (matches_to_verify um kc) in
  matches (loaded_none_matches w) = Some um →
  (exported (events o) = [] ∨
   exported (events o) = [(package, dn, colmap_db_path dc, false)]) ∧
  (py_in "matches_importer" skip_list = true → exported (events o) = []) ∧
  (py_in "matches_importer" skip_list = false → res o = Ok tt →
   exported (events o) = [(package, dn, colmap_db_path dc, false)]).
Proof.
  intros o package Hum; subst o package.
  destruct (has_mandatory (loaded_none_matches w)) eqn:Hm.
  - rewrite run_complete by done. simpl.
    change (omap export_call ?l) with (exported l).
    rewrite exported_app, rigs_log_exported. simpl.
    apply (run_steps_exported kc dn dc bin skip_list force
             (set_loaded (flattened (loaded_none_matches w)) w) um).
    simpl. by rewrite (proj2 (proj2 (proj2 (proj2 (flattened_fields _))))).
  - rewrite run_incomplete by done. simpl. repeat split; auto; done.
Qed.

Lemma exported_cases {X : Type} (l : list X) (x : X) :
  l = [] ∨ l = [x] → ∀ y, y ∈ l → y = x.
Proof.
  intros [-> | ->] y; [by rewrite elem_of_nil | by rewrite list_elem_of_singleton].
Qed.

(** C1: for a snapshot that passes the check of the mandatory collections,
    the matches handed over for verification are exactly the pairs of the
    unverified snapshot that are not among the matches of the verified
    snapshot; and a run that ends normally without skipping
    matches_importer hands them over once. *)
Theorem matches_selected_are_the_difference kc dn dc bin skip_list force w :
  let o := run_colmap_gv_from_loaded_data kc dn dc bin skip_list force w in
  has_mandatory (loaded_none_matches w) = true →
  (∀ package d p tv, (package, d, p, tv) ∈ exported (events o) →
     ∃ selected, matches package = Some selected ∧
       ∀ pair, pair ∈ selected ↔
               in_matches (loaded_none_matches w) pair ∧ ¬ in_matches kc pair) ∧
  (res o = Ok tt → "matches_importer" ∉ skip_list →
     ∃ call, exported (events o) = [call]).
Proof.
  intros o Hm; subst o.
  destruct (has_mandatory_matches _ Hm) as [um Hum].
  destruct (run_exported kc dn dc bin skip_list force w um Hum)
    as (Hor & _ & Hrun).
  split.
  - intros package d p tv Hin.
    apply (exported_cases _ _ Hor) in Hin. injection Hin as -> _ _ _.
    exists (matches_to_verify um kc). split; [done|].
    intros pair. unfold matches_to_verify, colmap_matches_of, in_matches.
    rewrite elem_of_difference, Hum.
    destruct (matches kc) as [vm|].
    + split.
      * intros [Hu Hv]. split; [eauto|]. by intros (m & [= <-] & ?).
      * intros [(m & [= <-] & Hu) Hv]. split; [done|]. intros ?. apply Hv; eauto.
    + split.
      * intros [Hu _]. split; [eauto|]. by intros (m & ? & ?).
      * intros [(m & [= <-] & Hu) _]. split; [done|]. apply not_elem_of_empty.
  - intros Hok Hskip. eexists. apply Hrun; [|done].
    unfold py_in. by apply bool_decide_eq_false.
Qed.


(** ** A verified snapshot without a match collection *)

Lemma bind_ext_l {A B : Type} (m1 m2 : M A) (k : A → M B) (w : State) :
  m1 w = m2 w → (m1 ≫= k) w = (m2 ≫= k) w.
Proof. intros Hm. unfold mbind, M_bind, bind. by rewrite Hm. Qed.

Lemma step_matches_importer_verified kc kc' dn db_path bin skip_list force w :
  colmap_matches_of kc = colmap_matches_of kc' →
  step_matches_importer kc dn db_path bin skip_list force w =
  step_matches_importer kc' dn db_path bin skip_list force w.
Proof.
  intros Heq. unfold step_matches_importer, matches_to_verify. by rewrite Heq.
Qed.

Lemma run_verified kc kc' dn dc bin skip_list force w :
  colmap_matches_of kc = colmap_matches_of kc' →
  run_colmap_gv_from_loaded_data kc dn dc bin skip_list force w =
  run_colmap_gv_from_loaded_data kc' dn dc bin skip_list force w.
Proof.
  intros Heq. unfold run_colmap_gv_from_loaded_data.
  do 4 (apply bind_ext; intros [] ?).
  by apply bind_ext_l, step_matches_importer_verified.
Qed.

(** C9: when the verified snapshot has no match collection at all, the run
    is, outcome, state and events, the run with an empty verified match set;
    every package it exports carries the whole unverified match set; and a
    run that ends normally without skipping matches_importer exports it. *)
Theorem missing_verified_matches_count_as_empty
    kc dn dc bin skip_list force w um :
  let o := run_colmap_gv_from_loaded_data kc dn dc bin skip_list force w in
  matches kc = None →
  matches (loaded_none_matches w) = Some um →
  o = run_colmap_gv_from_loaded_data (set_matches (Some ∅) kc) dn dc bin
        skip_list force w ∧
  matches_to_verify um kc = um ∧
  (∀ package d p tv, (package, d, p, tv) ∈ exported (events o) →
     matches package = Some um) ∧
  (res o = Ok tt → "matches_importer" ∉ skip_list →
     ∃ call, exported (events o) = [call]) ∧
  (∀ msg, res o ≠ Raise (AttributeError msg)).
Proof.
  intros o Hkc Hum; subst o.
  assert (matches_to_verify um kc = um) as Hdiff.
  { unfold matches_to_verify, colmap_matches_of. rewrite Hkc.
    apply difference_empty_L. }
  destruct (run_exported kc dn dc bin skip_list force w um Hum)
    as (Hor & _ & Hrun).
  split; [|split; [done|split; [|split]]].
  - apply run_verified. unfold colmap_matches_of. by rewrite Hkc.
  - intros package d p tv Hin.
    apply (exported_cases _ _ Hor) in Hin. injection Hin as -> _ _ _.
    unfold kapture_data_to_export. simpl. by rewrite Hdiff.
  - intros Hok Hskip. eexists. apply Hrun; [|done].
    unfold py_in. by apply bool_decide_eq_false.
  - intros msg Hr.
    destruct (has_mandatory (loaded_none_matches w)) eqn:Hm.
    + rewrite run_complete in Hr by done. unfold run_steps in Hr.
      cbv zeta in Hr. simpl in Hr. rewrite !res_bind in Hr.
      pose proof (step_delete_existing_loaded (colmap_db_path dc) skip_list
                    force (set_loaded (flattened (loaded_none_matches w)) w))
        as Hl.
      simpl in Hl.
      assert (matches (loaded_none_matches
                (final (step_delete_existing (colmap_db_path dc) skip_list force
                   (set_loaded (flattened (loaded_none_matches w)) w)))) =
              Some um) as Hum1.
      { rewrite Hl.
        by rewrite (proj2 (proj2 (proj2 (proj2 (flattened_fields _))))). }
      revert Hr Hum1. generalize (colmap_db_path dc). intros db Hr Hum1.
      repeat match type of Hr with
      | context [res (?step ?w')] =>
          let Hs := fresh "Hs" in
          destruct (res (step w')) as [[]|?] eqn:Hs; simplify_eq
      end.
      all: clear Hl; by_cases.
    + by rewrite run_incomplete in Hr by done.
Qed.

(** ** Rigs *)

Lemma flatten_poses_no_rig r poses device :
  is_Some (flatten_poses r poses !! device) → r !! device = None.
Proof.
  unfold flatten_poses. intros [pose Hpose].
  apply map_lookup_filter_Some in Hpose as [_ Hout]. simpl in Hout.
  by apply not_elem_of_dom.
Qed.

Lemma rigs_remove_inplace_no_rig t r :
  no_rig_reference r (rigs_remove_inplace t r).
Proof.
  intros timestamp poses device. unfold rigs_remove_inplace.
  rewrite lookup_fmap, fmap_Some. intros (before & _ & ->).
  apply flatten_poses_no_rig.
Qed.

Lemma members_written_lookup (f : string * Pose → Pose)
    (l : list (string * Pose)) (poses : gmap string Pose) device :
  is_Some (foldr (λ (member : string * Pose) (acc : gmap string Pose),
                    <[member.1 := f member]> acc) poses l !! device) →
  device ∈ l.*1 ∨ is_Some (poses !! device).
Proof.
  induction l as [|member l IH]; simpl; [by right|].
  destruct (decide (member.1 = device)) as [<-|Hne].
  - intros _. left. apply elem_of_cons. by left.
  - rewrite lookup_insert_ne by done. intros Hsome.
    destruct (IH Hsome) as [Hin|Hin]; [left|by right].
    apply elem_of_cons. by right.
Qed.

Lemma flatten_rig_below r rank n acc entry rest :
  well_nested r rank →
  (is_Some (r !! entry.1) → (rank entry.1 < S n)%nat) →
  (∀ device, is_Some (acc !! device) → is_Some (r !! device) →
             device ∈ (entry :: rest).*1 ∨ (rank device < n)%nat) →
  ∀ device, is_Some (flatten_rig r acc entry !! device) →
            is_Some (r !! device) →
            device ∈ rest.*1 ∨ (rank device < n)%nat.
Proof.
  intros [_ Hdown] Hentry Hacc device. unfold flatten_rig.
  destruct (r !! entry.1) as [members|] eqn:Hrig.
  - destruct (decide (entry.1 = device)) as [<-|Hne].
    { rewrite lookup_delete_eq. by intros []. }
    rewrite lookup_delete_ne by done. intros Hsome Hr.
    apply members_written_lookup in Hsome as [Hin|Hin].
    + right. apply list_elem_of_fmap in Hin as ([member pose] & -> & Hin).
      apply elem_of_map_to_list in Hin. simpl in *.
      assert (rank member < rank entry.1)%nat
        by (eapply Hdown; eauto).
      assert (rank entry.1 < S n)%nat by (apply Hentry; eauto). lia.
    + destruct (Hacc device Hin Hr) as [Hrest|]; [|by right].
      rewrite fmap_cons in Hrest. apply elem_of_cons in Hrest as [->|]; [done|].
      by left.
  - intros Hsome Hr. destruct (Hacc device Hsome Hr) as [Hrest|]; [|by right].
    rewrite fmap_cons in Hrest. apply elem_of_cons in Hrest as [->|]; [|by left].
    rewrite Hrig in Hr. by destruct Hr.
Qed.

Lemma flatten_rigs_below r rank n entries acc :
  well_nested r rank →
  (∀ entry, entry ∈ entries → is_Some (r !! entry.1) →
            (rank entry.1 < S n)%nat) →
  (∀ device, is_Some (acc !! device) → is_Some (r !! device) →
             device ∈ entries.*1 ∨ (rank device < n)%nat) →
  rigs_below r rank n (foldl (flatten_rig r) acc entries).
Proof.
  intros Hnest. revert acc.
  induction entries as [|entry rest IH]; intros acc Hentries Hacc; simpl.
  - intros device Hsome Hr. destruct (Hacc device Hsome Hr) as [Hin|]; [|done].
    by apply elem_of_nil in Hin.
  - apply IH.
    + intros e He. apply Hentries, elem_of_cons. by right.
    + apply flatten_rig_below; [done| |done].
      apply Hentries, elem_of_cons. by left.
Qed.

Lemma flatten_round_below r rank n poses :
  well_nested r rank →
  rigs_below r rank (S n) poses → rigs_below r rank n (flatten_round r poses).
Proof.
  intros Hnest Hbelow. unfold flatten_round.
  apply flatten_rigs_below; [done| |].
  - intros [device pose] Hin Hr. apply elem_of_map_to_list in Hin.
    apply Hbelow; [by eexists | done].
  - intros device [pose Hpose] _. left.
    apply list_elem_of_fmap. exists (device, pose).
    split; [done|]. by apply elem_of_map_to_list.
Qed.

Lemma flatten_rounds_below r rank n m poses :
  well_nested r rank →
  rigs_below r rank (n + m) poses →
  rigs_below r rank m (Nat.iter n (flatten_round r) poses).
Proof.
  intros Hnest. revert m.
  induction n as [|n IH]; intros m Hbelow; simpl; [done|].
  apply flatten_round_below; [done|]. apply IH.
  by replace (n + S m)%nat with (S n + m)%nat by lia.
Qed.

Lemma flatten_poses_well_nested r rank poses :
  well_nested r rank →
  flatten_poses r poses = Nat.iter (size r) (flatten_round r) poses.
Proof.
  intros Hnest. unfold flatten_poses. apply map_filter_id.
  intros device pose Hpose. simpl. apply not_elem_of_dom.
  destruct (r !! device) as [members|] eqn:Hrig; [|done].
  assert (rigs_below r rank 0
            (Nat.iter (size r) (flatten_round r) poses)) as Hbelow.
  { apply flatten_rounds_below; [done|].
    intros d _ Hr. rewrite Nat.add_0_r. by apply Hnest. }
  specialize (Hbelow device). 
  assert (rank device < 0)%nat by (apply Hbelow; eauto). lia.
Qed.

Lemma rigs_remove_inplace_well_nested t r rank :
  well_nested r rank →
  rigs_remove_inplace t r = Nat.iter (size r) (flatten_round r) <$> t.
Proof.
  intros Hnest. unfold rigs_remove_inplace.
  apply map_fmap_ext. intros timestamp poses _.
  by apply flatten_poses_well_nested with rank.
Qed.

(** ** The snapshot in memory along a run *)

Lemma step_matches_importer_loaded kc dn db_path bin skip_list force w :
  loaded_none_matches
    (final (step_matches_importer kc dn db_path bin skip_list force w)) =
  loaded_none_matches w.
Proof. by_cases. Qed.

Lemma step_import_loaded dc db_path skip_list w :
  loaded_none_matches (final (step_import dc db_path skip_list w)) =
  loaded_none_matches w.
Proof. by_cases. Qed.

Lemma step_delete_db_loaded db_path skip_list w :
  loaded_none_matches (final (step_delete_db db_path skip_list w)) =
  loaded_none_matches w.
Proof. by_cases. Qed.

Lemma run_steps_loaded kc dn dc bin skip_list force w :
  loaded_none_matches (final (run_steps kc dn dc bin skip_list force w)) =
  loaded_none_matches w.
Proof.
  unfold run_steps. cbv zeta. rewrite !final_bind.
  repeat match goal with
  | |- context [res (?step ?w')] => destruct (res (step w')) as [[]|?]
  end;
    by rewrite ?step_delete_db_loaded, ?step_import_loaded,
         ?step_matches_importer_loaded, ?step_delete_existing_loaded.
Qed.

Lemma run_loaded kc dn dc bin skip_list force w :
  has_mandatory (loaded_none_matches w) = true →
  loaded_none_matches
    (final (run_colmap_gv_from_loaded_data kc dn dc bin skip_list force w)) =
  flattened (loaded_none_matches w).
Proof.
  intros Hm. rewrite run_complete by done. simpl.
  by rewrite run_steps_loaded.
Qed.

(** C5: with rigs in the loaded unverified snapshot, the lines before the
    first step replace its trajectories, in memory, by the flattened ones: no
    device with a pose is a rig any more, whatever the rigs are, and when the
    rigs nest without a cycle this is what writing the rigs out gives, nothing
    being left out.  Those lines end normally, leave every file as it was and
    cause no database, file or process event; the four steps run after them,
    on the flattened snapshot, which is also what every export carries and
    what is in memory when the run is over. *)
Theorem rigs_flattened_in_memory_before_export
    kc dn dc bin skip_list force w r :
  let k := loaded_none_matches w in
  let b := run_before_steps w in
  let o := run_colmap_gv_from_loaded_data kc dn dc bin skip_list force w in
  has_mandatory k = true → rigs k = Some r →
  (res b = Ok tt ∧ files (final b) = files w ∧
   Forall (λ e, is_io e = false) (events b) ∧
   loaded_none_matches (final b) = flattened k) ∧
  o = after (events b) (run_steps kc dn dc bin skip_list force (final b)) ∧
  loaded_none_matches (final o) = flattened k ∧
  (∀ t, trajectories k = Some t →
        trajectories (flattened k) = Some (rigs_remove_inplace t r)) ∧
  (∀ t', trajectories (flattened k) = Some t' → no_rig_reference r t') ∧
  (∀ t rank, trajectories k = Some t → well_nested r rank →
        trajectories (flattened k) =
        Some (Nat.iter (size r) (flatten_round r) <$> t)) ∧
  (∀ package d p tv, (package, d, p, tv) ∈ exported (events o) →
        trajectories package = trajectories (flattened k)).
Proof.
  intros k b o Hm Hr; subst k b o.
  rewrite run_before_steps_complete by done. simpl.
  split; [|split; [|split; [|split; [|split; [|split]]]]].
  - split; [done|]. split; [done|]. split; [|done].
    constructor; [done|]. apply rigs_log_not_io.
  - by rewrite run_complete.
  - by apply run_loaded.
  - intros t Ht. unfold flattened. by rewrite Hr, Ht.
  - intros t'. unfold flattened. rewrite Hr.
    destruct (trajectories (loaded_none_matches w)) as [t|] eqn:Ht; simpl.
    + intros [= <-]. by apply rigs_remove_inplace_no_rig.
    + by rewrite Ht.
  - intros t rank Ht Hnest. unfold flattened. rewrite Hr, Ht. simpl.
    by rewrite (rigs_remove_inplace_well_nested t r rank).
  - intros package d p tv Hin.
    destruct (has_mandatory_matches _ Hm) as [um Hum].
    destruct (run_exported kc dn dc bin skip_list force w um Hum)
      as (Hor & _ & _).
    apply (exported_cases _ _ Hor) in Hin. by injection Hin as -> _ _ _.
Qed.

(** ** The database handle and the subprocess *)

Lemma scan_app held running l1 l2 :
  scan held running (l1 ++ l2) =
  match scan held running l1 with
  | Some (held', running') => scan held' running' l2
  | None => None
  end.
Proof.
  revert held running.
  induction l1 as [|e l1 IH]; intros held running; simpl; [done|].
  destruct e, held, running; simpl; by rewrite ?IH.
Qed.

Lemma scan_running_exits held l s :
  scan held true l = Some (s, false) →
  ∃ code rest, l = EvSubprocessExit code :: rest.
Proof.
  destruct held, l as [|[] l]; simpl; intros; simplify_eq; eauto.
Qed.

Lemma scan_launch held running l pre post binary p cpu s :
  scan held running l = Some (s, false) →
  l = pre ++ EvSubprocessLaunch binary p cpu :: post →
  db_held held pre = false ∧
  ∃ code rest, post = EvSubprocessExit code :: rest.
Proof.
  revert held running l.
  induction pre as [|e pre IH]; intros held running l Hscan ->; simpl in *.
  - destruct held, running; simpl in *; try done. split; [done|].
    eauto using scan_running_exits.
  - destruct e, running; simpl in *; try done; try destruct held;
      simpl in *; try done; eauto.
Qed.

Lemma handles_in_order_bind {A B : Type} (m : M A) (k : A → M B) :
  handles_in_order m → (∀ a, handles_in_order (k a)) →
  handles_in_order (m ≫= k).
Proof.
  intros Hm Hk w. destruct (Hm w) as (held & Hscan & Hok).
  rewrite events_bind, res_bind, scan_app, Hscan.
  destruct (res (m w)) as [a|e].
  - rewrite (Hok a eq_refl). apply Hk.
  - by exists held.
Qed.

Lemma run_before_steps_handles : handles_in_order run_before_steps.
Proof.
  intros w. exists false.
  destruct (has_mandatory (loaded_none_matches w)) eqn:Hm.
  - rewrite run_before_steps_complete by done. simpl.
    unfold rigs_log.
    by destruct (rigs (loaded_none_matches w)),
         (trajectories (loaded_none_matches w)).
  - by rewrite run_before_steps_incomplete.
Qed.

Lemma step_delete_existing_handles db_path skip_list force :
  handles_in_order (step_delete_existing db_path skip_list force).
Proof. intros w. by_cases; by eexists. Qed.

Lemma step_matches_importer_handles kc dn db_path bin skip_list force :
  handles_in_order (step_matches_importer kc dn db_path bin skip_list force).
Proof. intros w. by_cases; by eexists. Qed.

Lemma step_import_handles dc db_path skip_list :
  handles_in_order (step_import dc db_path skip_list).
Proof. intros w. by_cases; by eexists. Qed.

Lemma step_delete_db_handles db_path skip_list :
  handles_in_order (step_delete_db db_path skip_list).
Proof. intros w. by_cases; by eexists. Qed.

Lemma run_handles kc dn dc bin skip_list force w :
  ∃ held,
    scan false false
      (events (run_colmap_gv_from_loaded_data kc dn dc bin skip_list force w)) =
    Some (held, false).
Proof.
  rewrite run_is_checks_then_steps.
  assert (handles_in_order
            (run_before_steps;; run_steps kc dn dc bin skip_list force)) as Hrun.
  { apply handles_in_order_bind; [apply run_before_steps_handles|intros _].
    unfold run_steps.
    repeat (apply handles_in_order_bind; [|intros _]);
      auto using step_delete_existing_handles, step_matches_importer_handles,
        step_import_handles, step_delete_db_handles. }
  destruct (Hrun w) as (held & Hscan & _). eauto.
Qed.

(** C6: wherever the subprocess is launched in the events of a run, the
    orchestrator holds no database handle (the last of the connects and
    closes before the launch, if any, is a close); the event right after the
    launch is the exit of the subprocess, so nothing the orchestrator does,
    a connect least of all, falls between the two. *)
Theorem database_closed_while_subprocess_runs
    kc dn dc bin skip_list force w pre post binary p cpu :
  events (run_colmap_gv_from_loaded_data kc dn dc bin skip_list force w) =
    pre ++ EvSubprocessLaunch binary p cpu :: post →
  db_held false pre = false ∧
  (∃ code rest, post = EvSubprocessExit code :: rest) ∧
  (∀ before path rest, post = before ++ EvConnect path :: rest →
     ∃ code, EvSubprocessExit code ∈ before).
Proof.
  intros Hsplit.
  destruct (run_handles kc dn dc bin skip_list force w) as [held Hscan].
  destruct (scan_launch _ _ _ _ _ _ _ _ _ Hscan Hsplit)
    as (Hheld & code & rest & ->).
  split; [done|]. split; [eauto|].
  intros [|e before] path rest'; simpl; [done|].
  intros [= <- _]. exists code. apply elem_of_cons. by left.
Qed.

(** ** The database file before the first step and after the last *)

Lemma run_from_delete_existing kc dn dc bin skip_list force w :
  let o := run_through_delete_existing dc skip_list force w in
  run_colmap_gv_from_loaded_data kc dn dc bin skip_list force w =
  match res o with
  | Ok _ =>
      after (events o)
        (run_after_delete_existing kc dn dc bin skip_list force (final o))
  | Raise e => mkOutcome (Raise e) (final o) (events o)
  end.
Proof.
  intros o; subst o. rewrite run_is_delete_existing_then_rest.
  by destruct (bind_cases (run_through_delete_existing dc skip_list force)
                 (λ _, run_after_delete_existing kc dn dc bin skip_list force) w)
    as [(a & Hr & ->)|(e & Hr & ->)]; rewrite Hr.
Qed.

Lemma run_through_delete_existing_complete dc skip_list force w :
  has_mandatory (loaded_none_matches w) = true →
  run_through_delete_existing dc skip_list force w =
  after (EvLog INFO "run_colmap_gv..." :: rigs_log (loaded_none_matches w))
    (step_delete_existing (colmap_db_path dc) skip_list force
       (set_loaded (flattened (loaded_none_matches w)) w)).
Proof.
  intros Hm. unfold run_through_delete_existing.
  destruct (bind_cases run_before_steps
              (λ _, step_delete_existing (colmap_db_path dc) skip_list force) w)
    as [(a & Hr & ->)|(e & Hr & _)];
    rewrite (run_before_steps_complete w Hm) in *; by simplify_eq/=.
Qed.

Lemma rigs_log_no_confirm k path answer : EvConfirm path answer ∉ rigs_log k.
Proof.
  unfold rigs_log. destruct (rigs k), (trajectories k);
    rewrite ?list_elem_of_singleton, ?elem_of_nil; by intros ?.
Qed.

(** C7: with a file at the fixed database path, the check of the mandatory
    collections passed and delete_existing not skipped: under [force] the
    file is removed without a question and the run goes on with the three
    later steps; without [force] the user is asked, and the file is removed
    and the run goes on only on a yes; otherwise the run ends there with the
    failure of [safe_remove_file], every file as it was. *)
Theorem existing_database_needs_force_or_confirmation
    kc dn dc bin skip_list force w content :
  let p := colmap_db_path dc in
  let d := run_through_delete_existing dc skip_list force w in
  let o := run_colmap_gv_from_loaded_data kc dn dc bin skip_list force w in
  has_mandatory (loaded_none_matches w) = true →
  files w !! p = Some content →
  "delete_existing" ∉ skip_list →
  (force = true →
     res d = Ok tt ∧ files (final d) = delete p (files w) ∧
     (∀ answer, EvConfirm p answer ∉ events d) ∧
     o = after (events d)
           (run_after_delete_existing kc dn dc bin skip_list force (final d))) ∧
  (force = false →
     (∃ answer, EvConfirm p answer ∈ events d) ∧
     (∀ rest, answers w = true :: rest →
        res d = Ok tt ∧ files (final d) = delete p (files w) ∧
        o = after (events d)
              (run_after_delete_existing kc dn dc bin skip_list force (final d))) ∧
     ((∀ rest, answers w ≠ true :: rest) →
        res d = Raise (ExternalFault "safe_remove_file" (p +:+ " already exist")) ∧
        files (final d) = files w ∧
        o = d)).
Proof.
  intros p d o Hm Hfile Hskip; subst p d o.
  rewrite run_from_delete_existing. cbv zeta.
  rewrite run_through_delete_existing_complete by done.
  assert (py_in "delete_existing" skip_list = false) as Hpy
    by (unfold py_in; by apply bool_decide_eq_false).
  unfold step_delete_existing. rewrite Hpy. simpl negb. cbv iota.
  unfold safe_remove_file. unfold_monad. simpl. rewrite Hfile.
  split; intros ->; simpl.
  - split; [done|]. split; [done|]. split; [|done].
    intros answer. rewrite elem_of_cons, elem_of_app, !elem_of_cons, elem_of_nil.
    intros [|[?%rigs_log_no_confirm|[|[|]]]]; done.
  - destruct (answers w) as [|[] rest]; simpl.
    + split; [exists None; set_solver|]. by split.
    + split; [exists (Some true); set_solver|]. split; [done|].
      intros Hno. by destruct (Hno rest).
    + split; [exists (Some false); set_solver|]. by split.
Qed.

(** C8: when delete_db is skipped, the run is over with the import step:
    its outcome, its events and its final state, the files on disk among
    them, are those reached at the end of the import step. *)
Theorem database_kept_when_delete_db_skipped kc dn dc bin skip_list force w :
  "delete_db" ∈ skip_list →
  run_colmap_gv_from_loaded_data kc dn dc bin skip_list force w =
    run_through_import kc dn dc bin skip_list force w ∧
  (∀ w', step_delete_db (colmap_db_path dc) skip_list w' = mkOutcome (Ok tt) w' []).
Proof.
  intros Hskip.
  assert (py_in "delete_db" skip_list = true) as Hpy
    by (unfold py_in; by apply bool_decide_eq_true).
  assert (∀ w', step_delete_db (colmap_db_path dc) skip_list w' =
                mkOutcome (Ok tt) w' []) as Hstep
    by (intros w'; unfold step_delete_db; by rewrite Hpy).
  split; [|done].
  rewrite run_is_import_then_delete_db.
  etransitivity; [|apply bind_ret_tt].
  apply bind_ext. intros [] w'. by rewrite Hstep.
Qed.

(** C10: when delete_db is not skipped and there is no file at the fixed
    database path once the import step is over, the run ends with
    [FileNotFoundError] for that path, raised by the removal itself. *)
Theorem delete_db_fails_without_database kc dn dc bin skip_list force w :
  let i := run_through_import kc dn dc bin skip_list force w in
  let o := run_colmap_gv_from_loaded_data kc dn dc bin skip_list force w in
  "delete_db" ∉ skip_list →
  res i = Ok tt →
  files (final i) !! colmap_db_path dc = None →
  res o = Raise (FileNotFoundError (colmap_db_path dc)) ∧
  final o = final i ∧
  events o = events i ++ [EvLog DEBUG "delete intermediate colmap db.";
                          EvOsRemove (colmap_db_path dc)].
Proof.
  intros i o Hskip Hok Hnone; subst i o.
  assert (py_in "delete_db" skip_list = false) as Hpy
    by (unfold py_in; by apply bool_decide_eq_false).
  rewrite run_is_import_then_delete_db.
  rewrite res_bind, final_bind, events_bind, Hok.
  unfold step_delete_db. rewrite Hpy. simpl negb. cbv iota.
  by_cases.
Qed.

(** * More of the script *)

(** ** The database path *)

Lemma ends_with_sep_slash (d : string) : ends_with_sep (d +:+ "/") = true.
Proof.
  induction d as [|c d IH]; [done|].
  change (ends_with_sep (String c (d +:+ "/")) = true).
  destruct d; [done|]. exact IH.
Qed.

Lemma append_slash_not_empty (d : string) : String.eqb (d +:+ "/") "" = false.
Proof. by destruct d. Qed.

Lemma append_assoc3 (a b c : string) : (a +:+ b) +:+ c = a +:+ (b +:+ c).
Proof.
  induction a as [|x a IH]; [done|].
  change (String x ((a +:+ b) +:+ c) = String x (a +:+ (b +:+ c))).
  by rewrite IH.
Qed.

(** X1: a trailing slash on the output directory does not change the
    database path: for a directory name that is not empty and does not end
    in a slash, the name and the name followed by a slash both give
    "<name>/colmap.db". *)
Theorem colmap_db_path_trailing_slash (d : string) :
  d ≠ "" → ends_with_sep d = false →
  colmap_db_path d = d +:+ "/colmap.db" ∧
  colmap_db_path (d +:+ "/") = colmap_db_path d.
Proof.
  intros Hne Hend. unfold colmap_db_path, os_path_join. simpl starts_with_sep.
  cbv iota. rewrite Hend, ends_with_sep_slash, append_slash_not_empty.
  apply String.eqb_neq in Hne. rewrite Hne. simpl orb. cbv iota.
  split; [done|]. by rewrite append_assoc3.
Qed.

(** ** What a run does not depend on *)

Lemma step_matches_importer_skipped kc kc' dn db_path bin skip_list force force' w :
  py_in "matches_importer" skip_list = true →
  step_matches_importer kc dn db_path bin skip_list force w =
  step_matches_importer kc' dn db_path bin skip_list force' w.
Proof. intros Hpy. unfold step_matches_importer. by rewrite Hpy. Qed.

Lemma step_delete_existing_skipped db_path skip_list force force' w :
  py_in "delete_existing" skip_list = true →
  step_delete_existing db_path skip_list force w =
  step_delete_existing db_path skip_list force' w.
Proof. intros Hpy. unfold step_delete_existing. by rewrite Hpy. Qed.

(** X2: of the verified snapshot the run reads the match collection and
    nothing else: two verified snapshots with the same matches give the same
    run, outcome, final state and events; and when matches_importer is
    skipped the verified snapshot is not read at all. *)
Theorem verified_snapshot_read_only_for_matches
    kc kc' dn dc bin skip_list force w :
  (matches kc = matches kc' →
   run_colmap_gv_from_loaded_data kc dn dc bin skip_list force w =
   run_colmap_gv_from_loaded_data kc' dn dc bin skip_list force w) ∧
  ("matches_importer" ∈ skip_list →
   run_colmap_gv_from_loaded_data kc dn dc bin skip_list force w =
   run_colmap_gv_from_loaded_data kc' dn dc bin skip_list force w).
Proof.
  split.
  - intros Heq. apply run_verified. unfold colmap_matches_of. by rewrite Heq.
  - intros Hskip.
    assert (py_in "matches_importer" skip_list = true) as Hpy
      by (unfold py_in; by apply bool_decide_eq_true).
    unfold run_colmap_gv_from_loaded_data.
    do 4 (apply bind_ext; intros [] ?).
    by apply bind_ext_l, step_matches_importer_skipped.
Qed.

(** X3: the force flag is read by delete_existing and by matches_importer
    only: when both are skipped, the run is the same for either value of the
    flag. *)
Theorem force_only_read_by_first_two_steps
    kc dn dc bin skip_list force force' w :
  "delete_existing" ∈ skip_list → "matches_importer" ∈ skip_list →
  run_colmap_gv_from_loaded_data kc dn dc bin skip_list force w =
  run_colmap_gv_from_loaded_data kc dn dc bin skip_list force' w.
Proof.
  intros Hs1 Hs2.
  assert (py_in "delete_existing" skip_list = true) as Hpy1
    by (unfold py_in; by apply bool_decide_eq_true).
  assert (py_in "matches_importer" skip_list = true) as Hpy2
    by (unfold py_in; by apply bool_decide_eq_true).
  unfold run_colmap_gv_from_loaded_data.
  do 3 (apply bind_ext; intros [] ?). cbv zeta.
  etransitivity;
    [apply bind_ext_l, (step_delete_existing_skipped _ _ force force'); done|].
  apply bind_ext; intros [] ?.
  by apply bind_ext_l, step_matches_importer_skipped.
Qed.

(** X4: with all four steps skipped and the mandatory collections there,
    the run ends normally having done nothing but log and remove the rigs in
    memory: every file, the umask and the pending replies are as they were,
    and no database, file or process event has happened. *)
Theorem all_steps_skipped_is_a_dry_run kc dn dc bin skip_list force w :
  let o := run_colmap_gv_from_loaded_data kc dn dc bin skip_list force w in
  let k := loaded_none_matches w in
  has_mandatory k = true →
  (∀ name, name ∈ all_steps → name ∈ skip_list) →
  o = mkOutcome (Ok tt) (set_loaded (flattened k) w)
        (EvLog INFO "run_colmap_gv..." :: rigs_log k) ∧
  files (final o) = files w ∧
  Forall (λ e, is_io e = false) (events o).
Proof.
  intros o k Hm Hall; subst o k.
  assert (∀ name, name ∈ all_steps → py_in name skip_list = true) as Hpy.
  { intros name Hin. unfold py_in. by apply bool_decide_eq_true, Hall. }
  assert (run_colmap_gv_from_loaded_data kc dn dc bin skip_list force w =
          mkOutcome (Ok tt) (set_loaded (flattened (loaded_none_matches w)) w)
            (EvLog INFO "run_colmap_gv..." :: rigs_log (loaded_none_matches w)))
    as Hrun.
  { rewrite run_complete by done.
    unfold run_steps, step_delete_existing, step_matches_importer,
      step_import, step_delete_db.
    rewrite !Hpy by (unfold all_steps; set_solver).
    unfold after. unfold_monad. simpl. by rewrite app_nil_r. }
  rewrite Hrun. simpl. split; [done|]. split; [done|].
  constructor; [done|]. apply rigs_log_not_io.
Qed.

(** ** The last step, when the database is there *)

(** X5: when delete_db is not skipped and the database file is there once
    the import step is over, the run ends normally and has removed that
    file and no other: every other path holds what it held after the import
    step. *)
Theorem delete_db_removes_only_the_database
    kc dn dc bin skip_list force w content :
  let i := run_through_import kc dn dc bin skip_list force w in
  let o := run_colmap_gv_from_loaded_data kc dn dc bin skip_list force w in
  "delete_db" ∉ skip_list →
  res i = Ok tt →
  files (final i) !! colmap_db_path dc = Some content →
  res o = Ok tt ∧
  files (final o) !! colmap_db_path dc = None ∧
  (∀ p, p ≠ colmap_db_path dc → files (final o) !! p = files (final i) !! p) ∧
  events o = events i ++ [EvLog DEBUG "delete intermediate colmap db.";
                          EvOsRemove (colmap_db_path dc)].
Proof.
  intros i o Hskip Hok Hfile; subst i o.
  assert (py_in "delete_db" skip_list = false) as Hpy
    by (unfold py_in; by apply bool_decide_eq_false).
  rewrite run_is_import_then_delete_db.
  rewrite res_bind, final_bind, events_bind, Hok.
  unfold step_delete_db. rewrite Hpy. simpl negb. cbv iota.
  unfold_blocks. unfold_monad. simpl. rewrite Hfile. simpl.
  split; [done|]. split; [apply lookup_delete_eq|]. split; [|done].
  intros p Hp. by apply lookup_delete_ne.
Qed.

(** ** One database path, one binary *)








(** ** The umask *)

Lemma step_delete_existing_umask db_path skip_list force w :
  umask (final (step_delete_existing db_path skip_list force w)) = umask w.
Proof. by_cases. Qed.

Lemma step_matches_importer_umask kc dn db_path bin skip_list force w :
  umask (final (step_matches_importer kc dn db_path bin skip_list force w)) =
  umask w.
Proof. by_cases. Qed.

Lemma step_delete_db_umask db_path skip_list w :
  umask (final (step_delete_db db_path skip_list w)) = umask w.
Proof. by_cases. Qed.

Lemma step_import_umask dc db_path skip_list w :
  umask (final (step_import dc db_path skip_list w)) =
  if py_in "import" skip_list then umask w else 2.
Proof.
  unfold step_import. destruct (py_in "import" skip_list); by_cases.
Qed.

Lemma run_steps_umask kc dn dc bin skip_list force w :
  let o := run_steps kc dn dc bin skip_list force w in
  ("import" ∈ steps_started (events o) → umask (final o) = 2) ∧
  ("import" ∉ steps_started (events o) → umask (final o) = umask w).
Proof.
  intros o; subst o. unfold run_steps. cbv zeta.
  rewrite !events_bind, ?res_bind, !final_bind.
  repeat match goal with
  | |- context [res (?step ?w')] =>
      lazymatch step with
      | step_delete_db _ _ => fail
      | _ => destruct (res (step w')) as [[]|?]
      end
  end;
    rewrite ?steps_started_app;
    rewrite ?step_delete_existing_started, ?step_matches_importer_started,
      ?step_import_started, ?step_delete_db_started;
    rewrite ?step_delete_db_umask, ?step_import_umask,
      ?step_matches_importer_umask, ?step_delete_existing_umask;
    repeat match goal with |- context [py_in ?s skip_list] =>
      destruct (py_in s skip_list) end;
    simpl; split; intros Hin;
    first [ reflexivity
          | exfalso; revert Hin; rewrite ?elem_of_cons, ?elem_of_nil;
            first [ by intuition discriminate
                  | intros Hn; apply Hn; auto 10 ] ].
Qed.

(** X7: the import step sets the umask of the process to 0o002 and nothing
    sets it back: after a run that started the import step the umask is 2,
    whatever it was before and however the run ended; after any other run
    it is what it was. *)
Theorem umask_after_run kc dn dc bin skip_list force w :
  let o := run_colmap_gv_from_loaded_data kc dn dc bin skip_list force w in
  ("import" ∈ steps_started (events o) → umask (final o) = 2) ∧
  ("import" ∉ steps_started (events o) → umask (final o) = umask w).
Proof.
  intros o; subst o.
  destruct (has_mandatory (loaded_none_matches w)) eqn:Hm.
  - rewrite run_complete by done. simpl.
    change (omap step_started ?l) with (steps_started l).
    rewrite !steps_started_app, rigs_log_started. simpl.
    apply (run_steps_umask kc dn dc bin skip_list force
             (set_loaded (flattened (loaded_none_matches w)) w)).
  - rewrite run_incomplete by done. simpl. split; [|done].
    by intros ?%elem_of_nil.
Qed.

(** ** Handles left open *)

Lemma scan_held held running l held' running' :
  scan held running l = Some (held', running') → held' = db_held held l.
Proof.
  revert held running.
  induction l as [|e l IH]; intros held running; simpl; [by intros [= <- _]|].
  destruct e, held, running; simpl; try done; apply IH.
Qed.


Lemma run_handles_in_order kc dn dc bin skip_list force :
  handles_in_order
    (run_colmap_gv_from_loaded_data kc dn dc bin skip_list force).
Proof.
  intros w. rewrite run_is_checks_then_steps. revert w.
  apply handles_in_order_bind; [apply run_before_steps_handles|intros _].
  unfold run_steps.
  repeat (apply handles_in_order_bind; [|intros _]);
    auto using step_delete_existing_handles, step_matches_importer_handles,
      step_import_handles, step_delete_db_handles.
Qed.

(** X8: a run that ends normally has closed every database handle it
    opened: after its events the orchestrator holds none. *)
Theorem normal_end_leaves_no_handle kc dn dc bin skip_list force w :
  let o := run_colmap_gv_from_loaded_data kc dn dc bin skip_list force w in
  res o = Ok tt → db_held false (events o) = false.
Proof.
  intros o Hok; subst o.
  destruct (run_handles_in_order kc dn dc bin skip_list force w)
    as (held & Hscan & Hheld).
  apply scan_held in Hscan. rewrite <- Hscan. by eapply Hheld.
Qed.







(** ** Nothing left to verify *)



(** ** From the dataset directories *)

Lemma set_files_same (w : State) : set_files (files w) w = w.
Proof. by destruct w. Qed.

Lemma load_kapture_outcome kapture_from_dir dirpath pairsfile_path w :
  load_kapture kapture_from_dir dirpath pairsfile_path w =
  mkOutcome
    match kapture_from_dir dirpath pairsfile_path (files w) with
    | inl msg => Raise (collaborator_exn "kapture_from_dir" msg)
    | inr k => Ok k
    end w [].
Proof. unfold load_kapture, call. by rewrite set_files_same. Qed.

(** X11: [run_colmap_gv] loads the unverified dataset, then the verified
    one, with the same pairs file, and runs the orchestrator on them.  When
    either cannot be loaded it ends with that fault, the state as it was and
    no event at all; so does it, after one log line, when the unverified
    dataset lacks a mandatory collection.  Hence files change only when both
    datasets load and the unverified one has its image records, sensors,
    keypoints and matches. *)
Theorem run_colmap_gv_needs_both_datasets
    kapture_from_dir dn dc bin pairsfile_path skip_list force w :
  let o := run_colmap_gv kapture_from_dir dn dc bin pairsfile_path
             skip_list force w in
  (∀ msg, kapture_from_dir dn pairsfile_path (files w) = inl msg →
     o = mkOutcome (Raise (collaborator_exn "kapture_from_dir" msg)) w []) ∧
  (∀ kn msg,
     kapture_from_dir dn pairsfile_path (files w) = inr kn →
     kapture_from_dir dc pairsfile_path (files w) = inl msg →
     o = mkOutcome (Raise (collaborator_exn "kapture_from_dir" msg)) w []) ∧
  (∀ kn kc,
     kapture_from_dir dn pairsfile_path (files w) = inr kn →
     kapture_from_dir dc pairsfile_path (files w) = inr kc →
     o = run_colmap_gv_from_loaded_data kc dn dc bin skip_list force
           (set_loaded kn w)) ∧
  (files (final o) ≠ files w →
     ∃ kn kc,
       kapture_from_dir dn pairsfile_path (files w) = inr kn ∧
       kapture_from_dir dc pairsfile_path (files w) = inr kc ∧
       has_mandatory kn = true).
Proof.
  intros o; subst o.
  assert (∀ kn kc,
    kapture_from_dir dn pairsfile_path (files w) = inr kn →
    kapture_from_dir dc pairsfile_path (files w) = inr kc →
    run_colmap_gv kapture_from_dir dn dc bin pairsfile_path skip_list force w =
    run_colmap_gv_from_loaded_data kc dn dc bin skip_list force
      (set_loaded kn w)) as Hboth.
  { intros kn kc Hn Hc. unfold run_colmap_gv.
    unfold mbind at 1, M_bind at 1, bind at 1.
    rewrite load_kapture_outcome, Hn.
    unfold mbind at 1, M_bind at 1, bind at 1.
    rewrite load_kapture_outcome, Hc.
    unfold mbind at 1, M_bind at 1, bind at 1. unfold modify at 1.
    by destruct (run_colmap_gv_from_loaded_data kc dn dc bin skip_list force
                   (set_loaded kn w)). }
  assert (∀ msg, kapture_from_dir dn pairsfile_path (files w) = inl msg →
    run_colmap_gv kapture_from_dir dn dc bin pairsfile_path skip_list force w =
    mkOutcome (Raise (collaborator_exn "kapture_from_dir" msg)) w []) as Hfirst.
  { intros msg Hn. unfold run_colmap_gv.
    unfold mbind at 1, M_bind at 1, bind at 1.
    by rewrite load_kapture_outcome, Hn. }
  assert (∀ kn msg,
    kapture_from_dir dn pairsfile_path (files w) = inr kn →
    kapture_from_dir dc pairsfile_path (files w) = inl msg →
    run_colmap_gv kapture_from_dir dn dc bin pairsfile_path skip_list force w =
    mkOutcome (Raise (collaborator_exn "kapture_from_dir" msg)) w []) as Hsecond.
  { intros kn msg Hn Hc. unfold run_colmap_gv.
    unfold mbind at 1, M_bind at 1, bind at 1.
    rewrite load_kapture_outcome, Hn.
    unfold mbind at 1, M_bind at 1, bind at 1.
    by rewrite load_kapture_outcome, Hc. }
  split; [done|]. split; [done|]. split; [done|].
  intros Hfiles.
  destruct (kapture_from_dir dn pairsfile_path (files w)) as [msg|kn] eqn:Hn.
  { rewrite (Hfirst msg eq_refl) in Hfiles. by destruct Hfiles. }
  destruct (kapture_from_dir dc pairsfile_path (files w)) as [msg|kc] eqn:Hc.
  { rewrite (Hsecond kn msg eq_refl eq_refl) in Hfiles. by destruct Hfiles. }
  exists kn, kc. split; [done|]. split; [done|].
  rewrite (Hboth kn kc eq_refl eq_refl) in Hfiles.
  destruct (has_mandatory kn) eqn:Hm; [done|].
  rewrite run_incomplete in Hfiles by done. by destruct Hfiles.
Qed.

End Properties.

#[local] Existing Instance demo_collaborators.

Lemma matches_selected_are_the_difference_witness :
  has_mandatory demo_none_matches = true ∧
  ∃ call, exported (events (demo_run [] false ∅ [])) = [call].
Proof.
  assert (has_mandatory demo_none_matches = true) as Hm
    by (vm_compute; reflexivity).
  split; [exact Hm|].
  apply (matches_selected_are_the_difference (H := demo_collaborators) demo_colmap_matches
           "in" "out" "colmap" [] false (demo_state ∅ []) Hm).
  - vm_compute; reflexivity.
  - apply not_elem_of_nil.
Defined.

Lemma mandatory_check_aborts_before_io_witness :
  missing_or_empty (matches (@empty_kapture Z)) ∧
  res (run_colmap_gv_from_loaded_data demo_colmap_matches "in" "out"
         "colmap" [] false (mkState empty_kapture ∅ 18 [])) =
    Raise (ValueError mandatory_msg) ∧
  final (run_colmap_gv_from_loaded_data demo_colmap_matches "in" "out"
           "colmap" [] false (mkState empty_kapture ∅ 18 [])) =
    mkState empty_kapture ∅ 18 [] ∧
  events (run_colmap_gv_from_loaded_data demo_colmap_matches "in" "out"
            "colmap" [] false (mkState empty_kapture ∅ 18 [])) =
    [EvLog INFO "run_colmap_gv..."].
Proof.
  assert (missing_or_empty (matches (@empty_kapture Z))) as Hmiss by (by left).
  split; [exact Hmiss|].
  destruct (mandatory_check_aborts_before_io (H := demo_collaborators)
              demo_colmap_matches "in" "out" "colmap" [] false
              (mkState empty_kapture ∅ 18 [])) as (_ & Hincomplete & _).
  apply Hincomplete. right; right; right. exact Hmiss.
Defined.

(** C2 as stated, on the small dataset with a COLMAP process that exits
    with code 1: the run ends with a [ValueError] although no mandatory
    collection is missing or empty. *)
Lemma mandatory_check_iff_counterexample :
  ¬ ((∃ msg,
        res (run_colmap_gv_from_loaded_data (H := demo_colmap_fails)
               demo_colmap_matches "in" "out" "colmap" [] false
               (demo_state ∅ [])) = Raise (ValueError msg)) ↔
     (missing_or_empty (records_camera demo_none_matches) ∨
      missing_or_empty (sensors demo_none_matches) ∨
      missing_or_empty (keypoints demo_none_matches) ∨
      missing_or_empty (matches demo_none_matches))).
Proof.
  intros [Hraise _].
  assert (has_mandatory demo_none_matches = false) as Hm.
  { apply (has_mandatory_false (H := demo_collaborators)), Hraise.
    exists "matches_importer failed". vm_compute; reflexivity. }
  vm_compute in Hm. discriminate.
Qed.


Lemma steps_in_order_unless_skipped_witness :
  res (demo_run ["import"] false ∅ []) = Ok tt ∧
  steps_started (events (demo_run ["import"] false ∅ [])) =
    ["delete_existing"; "matches_importer"; "delete_db"] ∧
  EvOsRemove "out/colmap.db" ∈ events (demo_run ["import"] false ∅ []) ∧
  (EvGetMatches "out/colmap.db" "out" false ∈
     events (demo_run ["import"] false ∅ []) ↔ "import" ∉ ["import"]).
Proof.
  assert (res (demo_run ["import"] false ∅ []) = Ok tt) as Hok
    by (vm_compute; reflexivity).
  split; [exact Hok|].
  destruct (steps_in_order_unless_skipped (H := demo_collaborators)
              demo_colmap_matches "in" "out" "colmap" ["import"] false
              (demo_state ∅ [])) as (_ & _ & _ & Hall).
  destruct (Hall Hok)
    as (Hsteps & _ & um & removal & _ & _ & _ & _ & _ & Himport & Hdelete).
  split; [etransitivity; [exact Hsteps | vm_compute; reflexivity]|].
  split; [|exact Himport].
  apply Hdelete. rewrite !elem_of_cons, elem_of_nil. intros [|]; done.
Defined.

Lemma rigs_flattened_in_memory_before_export_witness :
  has_mandatory demo_none_matches = true ∧
  rigs demo_none_matches = Some demo_rigs ∧
  no_rig_reference demo_rigs {[0 := {["cam0" := 11]}]} ∧
  rigs_remove_inplace (H := demo_collaborators)
    {[0 := {["rig" := 10; "cam0" := 5]}]} demo_rigs =
    {[0 := {["cam0" := 11]}]} ∧
  rigs_remove_inplace (H := demo_collaborators)
    {[0 := {["rig" := 10]}]} demo_nested_rigs =
    {[0 := {["cam0" := 13]}]}.
Proof.
  assert (has_mandatory demo_none_matches = true) as Hm
    by (vm_compute; reflexivity).
  assert (rigs demo_none_matches = Some demo_rigs) as Hr by reflexivity.
  split; [exact Hm|]. split; [exact Hr|].
  destruct (rigs_flattened_in_memory_before_export (H := demo_collaborators)
              demo_colmap_matches "in" "out" "colmap" [] false
              (demo_state ∅ []) demo_rigs Hm Hr)
    as (_ & _ & _ & _ & Hflat & _).
  split; [apply Hflat; vm_compute; reflexivity|].
  split; vm_compute; reflexivity.
Defined.

Lemma database_closed_while_subprocess_runs_witness :
  events (demo_run [] false ∅ []) =
    take 9 (events (demo_run [] false ∅ [])) ++
    EvSubprocessLaunch "colmap" "out/colmap.db" true ::
    drop 10 (events (demo_run [] false ∅ [])) ∧
  db_held false (take 9 (events (demo_run [] false ∅ []))) = false.
Proof.
  assert (events (demo_run [] false ∅ []) =
            take 9 (events (demo_run [] false ∅ [])) ++
            EvSubprocessLaunch "colmap" "out/colmap.db" true ::
            drop 10 (events (demo_run [] false ∅ [])))
    as Hsplit by (vm_compute; reflexivity).
  split; [exact Hsplit|].
  exact (proj1 (database_closed_while_subprocess_runs (H := demo_collaborators) 
                  demo_colmap_matches "in" "out" "colmap" [] false
                  (demo_state ∅ [])
                  (take 9 (events (demo_run [] false ∅ [])))
                  (drop 10 (events (demo_run [] false ∅ [])))
                  "colmap" "out/colmap.db" true Hsplit)).
Defined.

Lemma existing_database_needs_force_or_confirmation_witness :
  has_mandatory demo_none_matches = true ∧
  ({["out/colmap.db" := "old"]} : gmap string string) !! colmap_db_path "out" =
    Some "old" ∧
  ("delete_existing" ∉ ([] : list string)) ∧
  res (run_through_delete_existing "out" [] true
         (demo_state {["out/colmap.db" := "old"]} [])) = Ok tt ∧
  res (run_through_delete_existing "out" [] false
         (demo_state {["out/colmap.db" := "old"]} [false])) =
    Raise (ExternalFault "safe_remove_file" "out/colmap.db already exist").
Proof.
  assert (has_mandatory demo_none_matches = true) as Hm
    by (vm_compute; reflexivity).
  assert (({["out/colmap.db" := "old"]} : gmap string string)
            !! colmap_db_path "out" = Some "old") as Hfile
    by (vm_compute; reflexivity).
  assert ("delete_existing" ∉ ([] : list string)) as Hskip
    by apply not_elem_of_nil.
  split; [exact Hm|]. split; [exact Hfile|]. split; [exact Hskip|]. split.
  - destruct (existing_database_needs_force_or_confirmation (H := demo_collaborators) 
                demo_colmap_matches "in" "out" "colmap" [] true
                (demo_state {["out/colmap.db" := "old"]} []) "old"
                Hm Hfile Hskip) as [Hforce _].
    apply (Hforce eq_refl).
  - destruct (existing_database_needs_force_or_confirmation (H := demo_collaborators) 
                demo_colmap_matches "in" "out" "colmap" [] false
                (demo_state {["out/colmap.db" := "old"]} [false]) "old"
                Hm Hfile Hskip) as [_ Hask].
    destruct (Hask eq_refl) as (_ & _ & Hno).
    apply Hno. intros rest. discriminate.
Defined.

Lemma database_kept_when_delete_db_skipped_witness :
  "delete_db" ∈ ["delete_db"] ∧
  files (final (demo_run ["delete_db"] false ∅ [])) !! "out/colmap.db" =
    Some "verified".
Proof.
  assert ("delete_db" ∈ ["delete_db"]) as Hskip by (apply elem_of_cons; by left).
  split; [exact Hskip|].
  destruct (database_kept_when_delete_db_skipped (H := demo_collaborators) demo_colmap_matches
              "in" "out" "colmap" ["delete_db"] false (demo_state ∅ []) Hskip)
    as [Hrun _].
  rewrite Hrun. vm_compute; reflexivity.
Defined.

Lemma missing_verified_matches_count_as_empty_witness :
  matches (@empty_kapture Z) = None ∧
  matches demo_none_matches = Some demo_pairs ∧
  matches_to_verify demo_pairs (@empty_kapture Z) = demo_pairs.
Proof.
  split; [reflexivity|]. split; [reflexivity|].
  apply (missing_verified_matches_count_as_empty (H := demo_collaborators) empty_kapture
           "in" "out" "colmap" [] false (demo_state ∅ []) demo_pairs
           eq_refl eq_refl).
Defined.

Lemma delete_db_fails_without_database_witness :
  ("delete_db" ∉ ["matches_importer"; "import"]) ∧
  res (run_through_import demo_colmap_matches "in" "out" "colmap"
         ["matches_importer"; "import"] false (demo_state ∅ [])) = Ok tt ∧
  files (final (run_through_import demo_colmap_matches "in" "out"
                  "colmap" ["matches_importer"; "import"] false
                  (demo_state ∅ []))) !! colmap_db_path "out" = None ∧
  res (demo_run ["matches_importer"; "import"] false ∅ []) =
    Raise (FileNotFoundError "out/colmap.db").
Proof.
  assert ("delete_db" ∉ ["matches_importer"; "import"]) as Hskip.
  { rewrite !elem_of_cons, elem_of_nil. intros [|[|]]; done. }
  assert (res (run_through_import demo_colmap_matches "in" "out" "colmap"
                 ["matches_importer"; "import"] false (demo_state ∅ [])) =
          Ok tt) as Hok by (vm_compute; reflexivity).
  assert (files (final (run_through_import demo_colmap_matches "in" "out"
                          "colmap" ["matches_importer"; "import"] false
                          (demo_state ∅ []))) !! colmap_db_path "out" = None)
    as Hnone by (vm_compute; reflexivity).
  split; [exact Hskip|]. split; [exact Hok|]. split; [exact Hnone|].
  apply (delete_db_fails_without_database (H := demo_collaborators) demo_colmap_matches "in" "out"
           "colmap" ["matches_importer"; "import"] false (demo_state ∅ [])
           Hskip Hok Hnone).
Defined.

(** ** The rest of the script on the small dataset *)

Lemma colmap_db_path_trailing_slash_witness :
  "out" ≠ "" ∧ ends_with_sep "out" = false ∧
  colmap_db_path "out/" = colmap_db_path "out".
Proof.
  assert ("out" ≠ "") as Hne by discriminate.
  assert (ends_with_sep "out" = false) as Hend by reflexivity.
  split; [exact Hne|]. split; [exact Hend|].
  exact (proj2 (colmap_db_path_trailing_slash "out" Hne Hend)).
Defined.

Lemma verified_snapshot_read_only_for_matches_witness :
  matches demo_colmap_matches =
    matches (set_matches (Some {[("a.jpg", "b.jpg")]}) demo_none_matches) ∧
  demo_run [] false ∅ [] =
  run_colmap_gv_from_loaded_data (H := demo_collaborators)
    (set_matches (Some {[("a.jpg", "b.jpg")]}) demo_none_matches)
    "in" "out" "colmap" [] false (demo_state ∅ []).
Proof.
  assert (matches demo_colmap_matches =
          matches (set_matches (Some {[("a.jpg", "b.jpg")]}) demo_none_matches))
    as Heq by reflexivity.
  split; [exact Heq|].
  exact (proj1 (verified_snapshot_read_only_for_matches
                  (H := demo_collaborators) demo_colmap_matches
                  (set_matches (Some {[("a.jpg", "b.jpg")]}) demo_none_matches)
                  "in" "out" "colmap" [] false (demo_state ∅ [])) Heq).
Defined.

Lemma force_only_read_by_first_two_steps_witness :
  "delete_existing" ∈ ["delete_existing"; "matches_importer"] ∧
  "matches_importer" ∈ ["delete_existing"; "matches_importer"] ∧
  demo_run ["delete_existing"; "matches_importer"] true ∅ [] =
  demo_run ["delete_existing"; "matches_importer"] false ∅ [].
Proof.
  assert ("delete_existing" ∈ ["delete_existing"; "matches_importer"]) as H1
    by (apply elem_of_cons; by left).
  assert ("matches_importer" ∈ ["delete_existing"; "matches_importer"]) as H2
    by (apply elem_of_cons; right; apply elem_of_cons; by left).
  split; [exact H1|]. split; [exact H2|].
  exact (force_only_read_by_first_two_steps (H := demo_collaborators)
           demo_colmap_matches "in" "out" "colmap"
           ["delete_existing"; "matches_importer"] true false
           (demo_state ∅ []) H1 H2).
Defined.

Lemma all_steps_skipped_is_a_dry_run_witness :
  has_mandatory demo_none_matches = true ∧
  (∀ name, name ∈ all_steps → name ∈ all_steps) ∧
  files (final (demo_run all_steps false {["out/colmap.db" := "old"]} [])) =
    {["out/colmap.db" := "old"]}.
Proof.
  assert (has_mandatory demo_none_matches = true) as Hm
    by (vm_compute; reflexivity).
  split; [exact Hm|]. split; [exact (λ name Hin, Hin)|].
  destruct (all_steps_skipped_is_a_dry_run (H := demo_collaborators)
              demo_colmap_matches "in" "out" "colmap" all_steps false
              (demo_state {["out/colmap.db" := "old"]} []) Hm
              (λ name Hin, Hin)) as (_ & Hfiles & _).
  exact Hfiles.
Defined.

Lemma delete_db_removes_only_the_database_witness :
  ("delete_db" ∉ ([] : list string)) ∧
  res (run_through_import (H := demo_collaborators) demo_colmap_matches
         "in" "out" "colmap" [] false (demo_state {["other" := "kept"]} [])) =
    Ok tt ∧
  files (final (run_through_import (H := demo_collaborators)
                  demo_colmap_matches "in" "out" "colmap" [] false
                  (demo_state {["other" := "kept"]} [])))
    !! colmap_db_path "out" = Some "verified" ∧
  files (final (demo_run [] false {["other" := "kept"]} []))
    !! colmap_db_path "out" = None.
Proof.
  assert ("delete_db" ∉ ([] : list string)) as Hskip by apply not_elem_of_nil.
  assert (res (run_through_import (H := demo_collaborators)
                 demo_colmap_matches "in" "out" "colmap" [] false
                 (demo_state {["other" := "kept"]} [])) = Ok tt) as Hok
    by (vm_compute; reflexivity).
  assert (files (final (run_through_import (H := demo_collaborators)
                          demo_colmap_matches "in" "out" "colmap" [] false
                          (demo_state {["other" := "kept"]} [])))
            !! colmap_db_path "out" = Some "verified") as Hfile
    by (vm_compute; reflexivity).
  split; [exact Hskip|]. split; [exact Hok|]. split; [exact Hfile|].
  destruct (delete_db_removes_only_the_database (H := demo_collaborators)
              demo_colmap_matches "in" "out" "colmap" [] false
              (demo_state {["other" := "kept"]} []) "verified"
              Hskip Hok Hfile) as (_ & Hgone & _).
  exact Hgone.
Defined.

Lemma umask_after_run_witness :
  "import" ∈ steps_started (events (demo_run [] false ∅ [])) ∧
  umask (final (demo_run [] false ∅ [])) = 2.
Proof.
  assert ("import" ∈ steps_started (events (demo_run [] false ∅ []))) as Hin.
  { replace (steps_started (events (demo_run [] false ∅ [])))
      with ["delete_existing"; "matches_importer"; "import"; "delete_db"]
      by (vm_compute; reflexivity).
    apply elem_of_cons; right. apply elem_of_cons; right.
    apply elem_of_cons; by left. }
  split; [exact Hin|].
  exact (proj1 (umask_after_run (H := demo_collaborators) demo_colmap_matches
                  "in" "out" "colmap" [] false (demo_state ∅ [])) Hin).
Defined.

Lemma normal_end_leaves_no_handle_witness :
  res (demo_run [] false ∅ []) = Ok tt ∧
  db_held false (events (demo_run [] false ∅ [])) = false.
Proof.
  assert (res (demo_run [] false ∅ []) = Ok tt) as Hok
    by (vm_compute; reflexivity).
  split; [exact Hok|].
  exact (normal_end_leaves_no_handle (H := demo_collaborators)
           demo_colmap_matches "in" "out" "colmap" [] false
           (demo_state ∅ []) Hok).
Defined.



Lemma run_colmap_gv_needs_both_datasets_witness :
  demo_from_dir "nowhere" None ∅ = inl "not a kapture directory" ∧
  run_colmap_gv (H := demo_collaborators) demo_from_dir "nowhere" "out"
    "colmap" None [] false (demo_state ∅ []) =
  mkOutcome (Raise (ExternalFault "kapture_from_dir" "not a kapture directory"))
    (demo_state ∅ []) [].
Proof.
  assert (demo_from_dir "nowhere" None ∅ = inl "not a kapture directory")
    as Hload by reflexivity.
  split; [exact Hload|].
  destruct (run_colmap_gv_needs_both_datasets (H := demo_collaborators)
              demo_from_dir "nowhere" "out" "colmap" None [] false
              (demo_state ∅ [])) as (Hfirst & _).
  exact (Hfirst "not a kapture directory" Hload).
Defined.
